(** * Sagalicious: the saga orchestrator (src/core/saga.ts) and its error
    classes (src/core/errors.ts), embedded as state-passing functions over an
    explicit world, with the properties of its transaction lifecycle. *)

From Stdlib Require Import String Ascii List NArith Arith Bool Lia.
Import ListNotations.
Local Open Scope string_scope.
Local Open Scope list_scope.

Set Implicit Arguments.

(** ** Errors (src/core/errors.ts) *)

(** A thrown JavaScript error: its [name] and its [message]. *)
Record JsError := mkJsError { errName : string; errMessage : string }.

(** [new Error(message)] *)
Definition Error (message : string) : JsError :=
  {| errName := "Error"; errMessage := message |}.

(** Modelled from the spec: src/core/command.interface.ts is not among the
    sources. A command is a structured value with a string discriminator
    [type] and application-defined auxiliary fields. [constructorName] is the
    run-time value of [command.constructor?.name] that errors.ts reads:
    [Some "Object"] for an object literal, the class name for a class
    instance, [None] when the object has no constructor. *)
Record Command := mkCommand {
  constructorName : option string;
  type : string;
  fields : list (string * string)
}.

(** An object literal [{ type: t }]. *)
Definition literal (t : string) : Command :=
  {| constructorName := Some "Object"; type := t; fields := [] |}.

(** [command.constructor?.name || typeof command] *)
Definition describeCommand (command : Command) : string :=
  match constructorName command with
  | Some n => if (n =? "")%string then "object" else n
  | None => "object"
  end.

(** [new NoProcessorFoundError(command)] *)
Definition NoProcessorFoundError (command : Command) : JsError :=
  {| errName := "NoProcessorFoundError";
     errMessage := "No processor found for command: " ++ describeCommand command |}.

(** ** Transactions (src/core/transaction.interface.ts) *)

Inductive TransactionStatus := Pending | Completed | RolledBack.

Inductive TransactionProcessAction := Commit | RollBack.

(** The result of awaiting a promise. *)
Inductive Outcome (A : Type) :=
| Resolved (a : A)
| Rejected (e : JsError).
Arguments Resolved {A} a.
Arguments Rejected {A} e.

(** ** crypto.randomUUID: a version 4 UUID rendered from 128 random bits *)

Definition hexDigit (n : N) : ascii :=
  nth (N.to_nat (n mod 16)) (list_ascii_of_string "0123456789abcdef") "0"%char.

Definition nibble (v : N) (i : nat) : N :=
  (N.shiftr v (4 * N.of_nat i) mod 16)%N.

Fixpoint hexField (v : N) (from len : nat) : string :=
  match len with
  | O => ""
  | S k => String (hexDigit (nibble v from)) (hexField v (S from) k)
  end.

Definition uuidString (v : N) : string :=
  hexField v 0 8 ++ "-" ++ hexField v 8 4 ++ "-4" ++ hexField v 13 3 ++ "-"
  ++ String (hexDigit (8 + nibble v 16 mod 4)) (hexField v 17 3)
  ++ "-" ++ hexField v 20 12.

Section Orchestrator.

(** [Ext] is the state of everything outside the orchestrator that handlers
    and the repository act on; [TMetadata] is the caller's metadata type. *)
Context {Ext TMetadata : Type}.

Record Transaction := mkTransaction {
  id : string;
  status : TransactionStatus;
  commands : list Command;
  metadata : option TMetadata;
  createdAt : nat;
  updatedAt : nat
}.

Record TransactionOptions := mkOptions {
  optId : option string;
  optMetadata : option TMetadata
}.

(** [Partial<Transaction>] as the orchestrator uses it. *)
Record Updates := mkUpdates {
  updStatus : option TransactionStatus;
  updUpdatedAt : option nat
}.

(** ** Collaborators *)

(** src/core/processor.interface.ts. [canProcess] is a type guard, a pure
    predicate on the command; [process] and [rollBack] act on the outside
    world and resolve or reject. They receive the transaction to read. *)
Record CommandProcessor := mkProcessor {
  canProcess : Command -> bool;
  process : Command -> Transaction -> Ext -> Outcome unit * Ext;
  rollBack : Command -> Transaction -> Ext -> Outcome unit * Ext
}.

(** src/core/repository.interface.ts *)
Record TransactionRepository := mkRepository {
  create : Transaction -> Ext -> Outcome unit * Ext;
  findByIdAndUpdate : string -> Updates -> Ext -> Outcome unit * Ext;
  findById : string -> Ext -> Outcome (option Transaction) * Ext;
  deleteById : string -> Ext -> Outcome unit * Ext;
  findByStatus : TransactionStatus -> Ext -> Outcome (list Transaction) * Ext
}.

Record Saga := mkSaga {
  processors : list CommandProcessor;
  repository : option TransactionRepository
}.

(** ** The world *)

(** Calls the orchestrator makes on its collaborators, in the order made.
    A processor is named by its position in the registered list; the
    transaction is recorded as it is at the time of the call. *)
Inductive Event :=
| CallProcess (i : nat) (command : Command) (t : Transaction)
| CallRollBack (i : nat) (command : Command) (t : Transaction)
| CallCreate (t : Transaction)
| CallFindByIdAndUpdate (txId : string) (u : Updates)
| CallFindById (txId : string)
| CallDeleteById (txId : string)
| CallFindByStatus (s : TransactionStatus).

(** [dates] and [uuids] are what successive [new Date()] and [randomUUID()]
    calls return; [dateReads] and [uuidReads] count the calls made so far. *)
Record World := mkWorld {
  ext : Ext;
  dates : nat -> nat;
  dateReads : nat;
  uuids : nat -> N;
  uuidReads : nat;
  calls : list Event
}.

Definition setExt (x : Ext) (w : World) : World :=
  mkWorld x (dates w) (dateReads w) (uuids w) (uuidReads w) (calls w).

Definition record (ev : Event) (w : World) : World :=
  mkWorld (ext w) (dates w) (dateReads w) (uuids w) (uuidReads w) (calls w ++ [ev]).

(** [new Date()] *)
Definition newDate (w : World) : nat * World :=
  (dates w (dateReads w),
   mkWorld (ext w) (dates w) (S (dateReads w)) (uuids w) (uuidReads w) (calls w)).

(** [randomUUID()] *)
Definition randomUUID (w : World) : string * World :=
  (uuidString (uuids w (uuidReads w)),
   mkWorld (ext w) (dates w) (dateReads w) (uuids w) (S (uuidReads w)) (calls w)).

(** ** Awaited computations: state over the world, with rejection *)

Definition M (A : Type) : Type := World -> Outcome A * World.

Definition ret {A} (a : A) : M A := fun w => (Resolved a, w).

Definition throw {A} (e : JsError) : M A := fun w => (Rejected e, w).

Definition bind {A B} (m : M A) (k : A -> M B) : M B :=
  fun w =>
    match m w with
    | (Resolved a, w') => k a w'
    | (Rejected e, w') => (Rejected e, w')
    end.

Notation "m ;; k" := (bind m (fun _ => k)) (at level 61, right associativity).

(** Calling a collaborator: the call is recorded, then it acts on [Ext]. *)
Definition call {A} (ev : Event) (f : Ext -> Outcome A * Ext) : M A :=
  fun w =>
    let (r, x) := f (ext w) in
    (r, setExt x (record ev w)).

(** ** Saga (src/core/saga.ts) *)

(** Position of the processor that [Array.prototype.find] returns. *)
Fixpoint findIndex {A} (f : A -> bool) (l : list A) : option nat :=
  match l with
  | [] => None
  | x :: tl => if f x then Some O else option_map S (findIndex f tl)
  end.

(** The [switch (action)] of processTransaction; its [default] branch is
    excluded by the two-valued enum. *)
Definition dispatch (action : TransactionProcessAction) (i : nat)
    (commandProcessor : CommandProcessor) (command : Command)
    (transaction : Transaction) : M unit :=
  match action with
  | Commit =>
      call (CallProcess i command transaction)
           (process commandProcessor command transaction)
  | RollBack =>
      call (CallRollBack i command transaction)
           (rollBack commandProcessor command transaction)
  end.

(** The [for (const command of commands)] loop of processTransaction. The
    processor is the one [find] returns; its position only names it in the
    record of calls. *)
Fixpoint forEachCommand (saga : Saga) (action : TransactionProcessAction)
    (transaction : Transaction) (cmds : list Command) : M unit :=
  match cmds with
  | [] => ret tt
  | command :: rest =>
      match find (fun p => canProcess p command) (processors saga),
            findIndex (fun p => canProcess p command) (processors saga) with
      | Some commandProcessor, Some i =>
          dispatch action i commandProcessor command transaction ;;
          forEachCommand saga action transaction rest
      | _, _ => throw (NoProcessorFoundError command)
      end
  end.

Definition processTransaction (saga : Saga) (transaction : Transaction)
    (action : TransactionProcessAction) : M unit :=
  if (id transaction =? "")%string then
    throw (Error "Only initialized transactions can be processed")
  else
    let cmds :=
      match action with
      | RollBack => rev (commands transaction)
      | Commit => commands transaction
      end in
    forEachCommand saga action transaction cmds.

(** [options?.id] and [options?.metadata] *)
Definition optionsId (options : option TransactionOptions) : option string :=
  match options with
  | Some o => optId o
  | None => None
  end.

Definition optionsMetadata (options : option TransactionOptions)
    : option TMetadata :=
  match options with
  | Some o => optMetadata o
  | None => None
  end.

(** [options?.id || randomUUID()]: the empty string is falsy. *)
Definition chooseId (options : option TransactionOptions) (w : World)
    : string * World :=
  match optionsId options with
  | Some s => if (s =? "")%string then randomUUID w else (s, w)
  | None => randomUUID w
  end.

(** The object literal that initTransaction builds. *)
Definition newTransaction (cmds : list Command)
    (options : option TransactionOptions) (w : World) : Transaction * World :=
  let (i, w1) := chooseId options w in
  let (c, w2) := newDate w1 in
  let (u, w3) := newDate w2 in
  ({| id := i;
      status := Pending;
      commands := cmds;
      metadata := optionsMetadata options;
      createdAt := c;
      updatedAt := u |}, w3).

(** [cmds = None] is a null command list. *)
Definition initTransaction (saga : Saga) (cmds : option (list Command))
    (options : option TransactionOptions) : M Transaction :=
  fun w =>
    match cmds with
    | None | Some [] => (Rejected (Error "Commands can't be null or empty"), w)
    | Some cs =>
        let (transaction, w1) := newTransaction cs options w in
        match repository saga with
        | Some r =>
            match call (CallCreate transaction) (create r transaction) w1 with
            | (Resolved _, w2) => (Resolved transaction, w2)
            | (Rejected e, w2) => (Rejected e, w2)
            end
        | None => (Resolved transaction, w1)
        end
    end.

(** [transaction.status = s] and [transaction.updatedAt = d] *)
Definition setStatus (s : TransactionStatus) (t : Transaction) : Transaction :=
  mkTransaction (id t) s (commands t) (metadata t) (createdAt t) (updatedAt t).

Definition setUpdatedAt (d : nat) (t : Transaction) : Transaction :=
  mkTransaction (id t) (status t) (commands t) (metadata t) (createdAt t) d.

(** The transaction is a mutable object: commitTransaction and
    rollBackTransaction return, next to the outcome, the object as the call
    leaves it. *)
Definition commitTransaction (saga : Saga) (transaction : Transaction)
    (w : World) : Outcome unit * Transaction * World :=
  match processTransaction saga transaction Commit w with
  | (Rejected e, w1) => (Rejected e, transaction, w1)
  | (Resolved _, w1) =>
      let transaction := setStatus Completed transaction in
      let (now, w2) := newDate w1 in
      let transaction := setUpdatedAt now transaction in
      match repository saga with
      | Some r =>
          let u := {| updStatus := Some Completed;
                      updUpdatedAt := Some (updatedAt transaction) |} in
          let (o, w3) :=
            call (CallFindByIdAndUpdate (id transaction) u)
                 (findByIdAndUpdate r (id transaction) u) w2 in
          (o, transaction, w3)
      | None => (Resolved tt, transaction, w2)
      end
  end.

Definition rollBackTransaction (saga : Saga) (transaction : Transaction)
    (w : World) : Outcome unit * Transaction * World :=
  match processTransaction saga transaction RollBack w with
  | (Rejected e, w1) => (Rejected e, transaction, w1)
  | (Resolved _, w1) =>
      let transaction := setStatus RolledBack transaction in
      let (now, w2) := newDate w1 in
      let transaction := setUpdatedAt now transaction in
      match repository saga with
      | Some r =>
          let u := {| updStatus := Some RolledBack;
                      updUpdatedAt := Some (updatedAt transaction) |} in
          let (o, w3) :=
            call (CallFindByIdAndUpdate (id transaction) u)
                 (findByIdAndUpdate r (id transaction) u) w2 in
          (o, transaction, w3)
      | None => (Resolved tt, transaction, w2)
      end
  end.

(** The middle component is the transaction object execute created, as the
    call leaves it ([None] when initTransaction rejected). *)
Definition execute (saga : Saga) (cmds : option (list Command))
    (options : option TransactionOptions) (w : World)
    : Outcome Transaction * option Transaction * World :=
  match initTransaction saga cmds options w with
  | (Rejected e, w1) => (Rejected e, None, w1)
  | (Resolved transaction, w1) =>
      match commitTransaction saga transaction w1 with
      | (Resolved _, t1, w2) => (Resolved t1, Some t1, w2)
      | (Rejected error, t1, w2) =>
          match rollBackTransaction saga t1 w2 with
          | (Resolved _, t2, w3) => (Rejected error, Some t2, w3)
          | (Rejected e2, t2, w3) => (Rejected e2, Some t2, w3)
          end
      end
  end.

(** ** HandlerAdapter (src/core/handler.adapter.ts) *)

(** src/core/handler.interface.ts *)
Record HandlerConfig := mkHandler {
  handlerType : string;
  handlerExecute : Command -> Transaction -> Ext -> Outcome unit * Ext;
  handlerRollback : Command -> Transaction -> Ext -> Outcome unit * Ext
}.

Definition HandlerAdapter (config : HandlerConfig) : CommandProcessor :=
  {| canProcess := fun command => (type command =? handlerType config)%string;
     process := handlerExecute config;
     rollBack := handlerRollback config |}.

(** ** Vocabulary for the properties *)

(** The world after a run that left the outside in state [x] and made the
    calls [evs]; clocks and identifiers are untouched. *)
Definition afterCalls (w : World) (x : Ext) (evs : list Event) : World :=
  mkWorld x (dates w) (dateReads w) (uuids w) (uuidReads w) (calls w ++ evs).

(** The handler step an action runs on a processor. *)
Definition step (action : TransactionProcessAction) (p : CommandProcessor)
    : Command -> Transaction -> Ext -> Outcome unit * Ext :=
  match action with
  | Commit => process p
  | RollBack => rollBack p
  end.

Definition stepCall (action : TransactionProcessAction) (i : nat)
    (command : Command) (t : Transaction) : Event :=
  match action with
  | Commit => CallProcess i command t
  | RollBack => CallRollBack i command t
  end.

(** The call that dispatching [command] makes, if a processor claims it. *)
Definition callOf (saga : Saga) (action : TransactionProcessAction)
    (t : Transaction) (command : Command) : list Event :=
  match findIndex (fun p => canProcess p command) (processors saga) with
  | Some i => [stepCall action i command t]
  | None => []
  end.

Definition callsOf (saga : Saga) (action : TransactionProcessAction)
    (t : Transaction) (cmds : list Command) : list Event :=
  flat_map (callOf saga action t) cmds.

(** [stepsRun saga action t cmds x x']: every command of [cmds] is claimed
    by a registered processor and its step, run in list order starting from
    the outside state [x], resolves; the last one leaves [x']. *)
Inductive stepsRun (saga : Saga) (action : TransactionProcessAction)
    (t : Transaction) : list Command -> Ext -> Ext -> Prop :=
| stepsRun_nil : forall x, stepsRun saga action t [] x x
| stepsRun_cons : forall command rest p x x1 x2,
    find (fun p => canProcess p command) (processors saga) = Some p ->
    step action p command t x = (Resolved tt, x1) ->
    stepsRun saga action t rest x1 x2 ->
    stepsRun saga action t (command :: rest) x x2.

(** [i] is the first position of [ps] whose processor claims [command]. *)
Definition firstMatch (ps : list CommandProcessor) (command : Command)
    (i : nat) : Prop :=
  exists p,
    nth_error ps i = Some p /\
    find (fun q => canProcess q command) ps = Some p /\
    canProcess p command = true /\
    forall j q, j < i -> nth_error ps j = Some q -> canProcess q command = false.

(** A call on a processor goes to the first match for its command. *)
Definition dispatchedToFirst (ps : list CommandProcessor) (ev : Event) : Prop :=
  match ev with
  | CallProcess i command _ | CallRollBack i command _ => firstMatch ps command i
  | _ => False
  end.

(** The calls the orchestrator makes on the storage port. *)
Definition isStorageCall (ev : Event) : bool :=
  match ev with
  | CallProcess _ _ _ | CallRollBack _ _ _ => false
  | _ => true
  end.

(** The calls the orchestrator's control flow may make at all. *)
Definition isCoreCall (ev : Event) : bool :=
  match ev with
  | CallProcess _ _ _ | CallRollBack _ _ _
  | CallCreate _ | CallFindByIdAndUpdate _ _ => true
  | _ => false
  end.

(** The update call a settled transaction is persisted with. *)
Definition updateCall (t : Transaction) : Event :=
  CallFindByIdAndUpdate (id t)
    {| updStatus := Some (status t); updUpdatedAt := Some (updatedAt t) |}.

(** The status an action settles a transaction in. *)
Definition finalStatus (action : TransactionProcessAction) : TransactionStatus :=
  match action with
  | Commit => Completed
  | RollBack => RolledBack
  end.

(** commitTransaction and rollBackTransaction, by their action. *)
Definition settle (saga : Saga) (action : TransactionProcessAction)
    : Transaction -> World -> Outcome unit * Transaction * World :=
  match action with
  | Commit => commitTransaction saga
  | RollBack => rollBackTransaction saga
  end.

(** The order in which an action goes through the commands. *)
Definition passOrder (action : TransactionProcessAction) (t : Transaction)
    : list Command :=
  match action with
  | RollBack => rev (commands t)
  | Commit => commands t
  end.

(** [command] is dispatched by the call [ev], made on its first match. *)
Definition dispatchedBy (saga : Saga) (action : TransactionProcessAction)
    (t : Transaction) (command : Command) (ev : Event) : Prop :=
  exists i, firstMatch (processors saga) command i /\
            ev = stepCall action i command t.

(** The calls made on the storage port when it is configured. *)
Definition ifStored (saga : Saga) (evs : list Event) : list Event :=
  match repository saga with
  | Some _ => evs
  | None => []
  end.


End Orchestrator.

(** ** Global configuration (src/core/config.ts) *)

Section Configuration.

Context {Ext TMetadata : Type}.

Record SagaliciousConfig := mkConfig {
  configRepository : option (@TransactionRepository Ext TMetadata)
}.

(** The module variable [globalConfig] is passed in and out.
    [globalConfig = { ...config }] *)
Definition configureSagalicious (config : SagaliciousConfig)
    (globalConfig : SagaliciousConfig) : SagaliciousConfig :=
  {| configRepository := configRepository config |}.

Definition getGlobalConfig (globalConfig : SagaliciousConfig)
    : SagaliciousConfig :=
  globalConfig.

(** [globalConfig = {}] *)
Definition resetGlobalConfig (globalConfig : SagaliciousConfig)
    : SagaliciousConfig :=
  {| configRepository := None |}.

End Configuration.

(** ** SagaBuilder (src/core/saga.builder.ts) *)

Module Builder.

Section Builder.

Context {Ext TMetadata : Type}.

(** A builder's [processors] is an array object. [build] hands that very
    array to the Saga, which keeps it: builder and sagas hold one array.
    [Arrays] is the store of these arrays, a reference is a number. *)
Record Arrays := mkArrays {
  arrayAt : nat -> list (@CommandProcessor Ext TMetadata);
  allocated : nat
}.

Record SagaBuilder := mkBuilder {
  builderProcessors : nat;
  builderRepository : option (@TransactionRepository Ext TMetadata)
}.

(** A Saga object: its [processors] field is a reference. *)
Record SagaObject := mkSagaObject {
  sagaProcessors : nat;
  sagaRepository : option (@TransactionRepository Ext TMetadata)
}.

(** The saga as it stands when the arrays are [h]. *)
Definition sagaIn (h : Arrays) (s : SagaObject) : @Saga Ext TMetadata :=
  {| processors := arrayAt h (sagaProcessors s);
     repository := sagaRepository s |}.

(** [array.push(p)] on the array [r]. *)
Definition push (r : nat) (p : @CommandProcessor Ext TMetadata) (h : Arrays)
    : Arrays :=
  {| arrayAt := fun r' => if Nat.eqb r' r then arrayAt h r ++ [p] else arrayAt h r';
     allocated := allocated h |}.

(** [new SagaBuilder()]: a fresh empty array, no repository. *)
Definition createSaga (h : Arrays) : SagaBuilder * Arrays :=
  ({| builderProcessors := allocated h; builderRepository := None |},
   {| arrayAt := fun r' => if Nat.eqb r' (allocated h) then [] else arrayAt h r';
      allocated := S (allocated h) |}).

(** [Omit<HandlerConfig, 'type'>] *)
Record HandlerFunctions := mkHandlerFunctions {
  fnExecute : Command -> @Transaction TMetadata -> Ext -> Outcome unit * Ext;
  fnRollback : Command -> @Transaction TMetadata -> Ext -> Outcome unit * Ext
}.

(** The arguments the two overloads of [handler] accept. *)
Inductive HandlerArguments :=
| ByType (ty : string) (config : HandlerFunctions)
| ByConfig (config : @HandlerConfig Ext TMetadata).

(** The methods mutate the builder and return it. *)
Definition handler (args : HandlerArguments) (b : SagaBuilder) (h : Arrays)
    : SagaBuilder * Arrays :=
  match args with
  | ByType typeOrConfig config =>
      (b, push (builderProcessors b)
               (HandlerAdapter {| handlerType := typeOrConfig;
                                  handlerExecute := fnExecute config;
                                  handlerRollback := fnRollback config |}) h)
  | ByConfig typeOrConfig =>
      (b, push (builderProcessors b) (HandlerAdapter typeOrConfig) h)
  end.

Definition processor (p : @CommandProcessor Ext TMetadata) (b : SagaBuilder)
    (h : Arrays) : SagaBuilder * Arrays :=
  (b, push (builderProcessors b) p h).

Definition withRepository (r : @TransactionRepository Ext TMetadata)
    (b : SagaBuilder) : SagaBuilder :=
  {| builderProcessors := builderProcessors b; builderRepository := Some r |}.

(** [this.repository ?? globalConfig.repository] *)
Definition build (globalConfig : @SagaliciousConfig Ext TMetadata) (b : SagaBuilder)
    : SagaObject :=
  {| sagaProcessors := builderProcessors b;
     sagaRepository :=
       match builderRepository b with
       | Some r => Some r
       | None => configRepository (getGlobalConfig globalConfig)
       end |}.

(** A registration on a builder, and a sequence of them in call order. *)
Inductive Registration :=
| RegisterHandler (args : HandlerArguments)
| RegisterProcessor (p : @CommandProcessor Ext TMetadata).

Definition registered (reg : Registration) : @CommandProcessor Ext TMetadata :=
  match reg with
  | RegisterHandler (ByType ty config) =>
      HandlerAdapter {| handlerType := ty;
                        handlerExecute := fnExecute config;
                        handlerRollback := fnRollback config |}
  | RegisterHandler (ByConfig config) => HandlerAdapter config
  | RegisterProcessor p => p
  end.

Definition register (reg : Registration) (b : SagaBuilder) (h : Arrays)
    : SagaBuilder * Arrays :=
  match reg with
  | RegisterHandler args => handler args b h
  | RegisterProcessor p => processor p b h
  end.

Fixpoint registerAll (regs : list Registration) (b : SagaBuilder) (h : Arrays)
    : SagaBuilder * Arrays :=
  match regs with
  | [] => (b, h)
  | reg :: rest => let (b', h') := register reg b h in registerAll rest b' h'
  end.

End Builder.

End Builder.

(** ** InMemoryTransactionRepository (src/repositories/memory.repository.ts) *)

Section MemoryRepository.

Context {TMetadata : Type}.

(** [Partial<Transaction>]: any of the fields, present or not. A field that
    is present holds a value of its type; the type also admits a field that
    is present with the value [undefined], which is not represented: the
    record such an update stores is no Transaction. *)
Record PartialTransaction := mkPartial {
  partId : option string;
  partStatus : option TransactionStatus;
  partCommands : option (list Command);
  partMetadata : option (option TMetadata);
  partCreatedAt : option nat;
  partUpdatedAt : option nat
}.

Definition orElse {A} (o : option A) (d : A) : A :=
  match o with
  | Some a => a
  | None => d
  end.

(** [{ ...existing, ...updates, updatedAt: now }] where [now] is the value
    of [new Date()]. *)
Definition applyUpdates (existing : @Transaction TMetadata)
    (updates : PartialTransaction) (now : nat) : @Transaction TMetadata :=
  {| id := orElse (partId updates) (id existing);
     status := orElse (partStatus updates) (status existing);
     commands := orElse (partCommands updates) (commands existing);
     metadata := orElse (partMetadata updates) (metadata existing);
     createdAt := orElse (partCreatedAt updates) (createdAt existing);
     updatedAt := now |}.

(** [Map<string, Transaction>]: the entries in insertion order. *)
Definition TransactionMap : Type := list (string * @Transaction TMetadata).

Fixpoint mapGet (k : string) (m : TransactionMap)
    : option (@Transaction TMetadata) :=
  match m with
  | [] => None
  | (k', v) :: rest => if (k' =? k)%string then Some v else mapGet k rest
  end.

(** [Map.prototype.set]: an existing key keeps its place. *)
Fixpoint mapSet (k : string) (v : @Transaction TMetadata) (m : TransactionMap)
    : TransactionMap :=
  match m with
  | [] => [(k, v)]
  | (k', v') :: rest =>
      if (k' =? k)%string then (k, v) :: rest else (k', v') :: mapSet k v rest
  end.

Fixpoint mapDelete (k : string) (m : TransactionMap) : TransactionMap :=
  match m with
  | [] => []
  | (k', v) :: rest =>
      if (k' =? k)%string then rest else (k', v) :: mapDelete k rest
  end.

Definition mapValues (m : TransactionMap) : list (@Transaction TMetadata) :=
  map snd m.

Definition statusEqb (a b : TransactionStatus) : bool :=
  match a, b with
  | Pending, Pending | Completed, Completed | RolledBack, RolledBack => true
  | _, _ => false
  end.

(** The methods, on the [transactions] map of the repository. Records are
    copied in and out, so they are values here. *)
Definition memCreate (transaction : @Transaction TMetadata) (m : TransactionMap)
    : TransactionMap :=
  mapSet (id transaction) transaction m.

Definition memFindByIdAndUpdate (i : string) (updates : PartialTransaction)
    (now : nat) (m : TransactionMap) : Outcome unit * TransactionMap :=
  match mapGet i m with
  | None => (Rejected (Error ("Transaction " ++ i ++ " not found")), m)
  | Some existing => (Resolved tt, mapSet i (applyUpdates existing updates now) m)
  end.

Definition memFindById (i : string) (m : TransactionMap)
    : option (@Transaction TMetadata) :=
  mapGet i m.

Definition memDeleteById (i : string) (m : TransactionMap) : TransactionMap :=
  mapDelete i m.

Definition memFindByStatus (s : TransactionStatus) (m : TransactionMap)
    : list (@Transaction TMetadata) :=
  filter (fun transaction => statusEqb (status transaction) s) (mapValues m).

Definition memClear (m : TransactionMap) : TransactionMap := [].

Definition memSize (m : TransactionMap) : nat := length m.

(** The maps that the methods make from [new Map()]. *)
Inductive MemOperation :=
| MemCreate (transaction : @Transaction TMetadata)
| MemUpdate (i : string) (updates : PartialTransaction) (now : nat)
| MemDelete (i : string)
| MemClear.

Definition memApply (op : MemOperation) (m : TransactionMap) : TransactionMap :=
  match op with
  | MemCreate transaction => memCreate transaction m
  | MemUpdate i updates now => snd (memFindByIdAndUpdate i updates now m)
  | MemDelete i => memDeleteById i m
  | MemClear => memClear m
  end.

Definition memRun (ops : list MemOperation) : TransactionMap :=
  fold_left (fun m op => memApply op m) ops [].

(** *** The repository behind a saga

    The outside world of a saga that stores its transactions in memory: the
    repository's map, the dates its own [new Date()] calls return, and
    whatever else the handlers act on. *)
Record MemoryOutside (H : Type) := mkMemoryOutside {
  stored : TransactionMap;
  repositoryDates : nat -> nat;
  repositoryDateReads : nat;
  handlersOutside : H
}.

(** The updates the orchestrator sends, as a [Partial<Transaction>]. *)
Definition fullUpdates (u : Updates) : PartialTransaction :=
  {| partId := None; partStatus := updStatus u; partCommands := None;
     partMetadata := None; partCreatedAt := None;
     partUpdatedAt := updUpdatedAt u |}.

Definition InMemoryTransactionRepository {H : Type}
    : @TransactionRepository (MemoryOutside H) TMetadata :=
  {| create := fun transaction x =>
       (Resolved tt,
        mkMemoryOutside (memCreate transaction (stored x)) (repositoryDates x)
          (repositoryDateReads x) (handlersOutside x));
     findByIdAndUpdate := fun i u x =>
       match memFindByIdAndUpdate i (fullUpdates u)
               (repositoryDates x (repositoryDateReads x)) (stored x) with
       | (Resolved _, m) =>
           (Resolved tt,
            mkMemoryOutside m (repositoryDates x)
              (S (repositoryDateReads x)) (handlersOutside x))
       | (Rejected e, m) => (Rejected e, x)
       end;
     findById := fun i x => (Resolved (memFindById i (stored x)), x);
     deleteById := fun i x =>
       (Resolved tt,
        mkMemoryOutside (memDeleteById i (stored x)) (repositoryDates x)
          (repositoryDateReads x) (handlersOutside x));
     findByStatus := fun s x => (Resolved (memFindByStatus s (stored x)), x) |}.

End MemoryRepository.

(** ** Further vocabulary *)

Section FurtherVocabulary.

Context {Ext TMetadata : Type}.

(** The processor and the command a call is made on. *)
Definition callTarget (ev : @Event TMetadata) : option (nat * Command) :=
  match ev with
  | CallProcess i command _ | CallRollBack i command _ => Some (i, command)
  | _ => None
  end.

Definition isProcessCall (ev : @Event TMetadata) : bool :=
  match ev with
  | CallProcess _ _ _ => true
  | _ => false
  end.

Definition isRollBackCall (ev : @Event TMetadata) : bool :=
  match ev with
  | CallRollBack _ _ _ => true
  | _ => false
  end.

(** Every step of every registered processor keeps [P] of the outside. *)
Definition stepsPreserve (saga : @Saga Ext TMetadata) (P : Ext -> Prop) : Prop :=
  forall p action command t x,
    In p (processors saga) -> P x -> P (snd (step action p command t x)).

(** Every call on the storage port keeps [P] of the outside. *)
Definition storagePreserves (saga : @Saga Ext TMetadata) (P : Ext -> Prop)
    : Prop :=
  forall r, repository saga = Some r ->
    (forall t x, P x -> P (snd (create r t x))) /\
    (forall i u x, P x -> P (snd (findByIdAndUpdate r i u x))).

End FurtherVocabulary.

(** ** Concrete sagas, on which the model is run

    The outside world is a journal of the effects handlers had. Handlers are
    registered through HandlerAdapter, as the builder does. *)

Definition Journal : Type := list string.

Definition notes (note : string)
    : Command -> @Transaction unit -> Journal -> Outcome unit * Journal :=
  fun command _ x => (Resolved tt, x ++ [(note ++ " " ++ type command)%string]).

Definition fails (message : string)
    : Command -> @Transaction unit -> Journal -> Outcome unit * Journal :=
  fun _ _ x => (Rejected (Error message), x).

Definition handler (ty : string)
    (execute rollback : Command -> @Transaction unit -> Journal -> Outcome unit * Journal)
    : @CommandProcessor Journal unit :=
  HandlerAdapter
    {| handlerType := ty; handlerExecute := execute; handlerRollback := rollback |}.

(** A storage port whose calls all resolve, and one whose update rejects. *)
Definition workingRepository : @TransactionRepository Journal unit :=
  {| create := fun _ x => (Resolved tt, x ++ ["stored"]);
     findByIdAndUpdate := fun _ _ x => (Resolved tt, x ++ ["updated"]);
     findById := fun _ x => (Resolved None, x);
     deleteById := fun _ x => (Resolved tt, x);
     findByStatus := fun _ x => (Resolved [], x) |}.

Definition failingRepository : @TransactionRepository Journal unit :=
  {| create := fun _ x => (Resolved tt, x ++ ["stored"]);
     findByIdAndUpdate := fun _ _ x => (Rejected (Error "storage unavailable"), x);
     findById := fun _ x => (Resolved None, x);
     deleteById := fun _ x => (Resolved tt, x);
     findByStatus := fun _ x => (Resolved [], x) |}.

Definition unreachableRepository : @TransactionRepository Journal unit :=
  {| create := fun _ x => (Rejected (Error "storage unavailable"), x);
     findByIdAndUpdate := fun _ _ x => (Rejected (Error "storage unavailable"), x);
     findById := fun _ x => (Resolved None, x);
     deleteById := fun _ x => (Resolved tt, x);
     findByStatus := fun _ x => (Resolved [], x) |}.

Definition world0 : @World Journal unit :=
  {| ext := []; dates := fun n => 1000 + n; dateReads := 0;
     uuids := fun n => N.of_nat n; uuidReads := 0; calls := [] |}.

Definition withId (s : string) : option (@TransactionOptions unit) :=
  Some {| optId := Some s; optMetadata := None |}.

(** Handlers for [a], [b] and [c] that all resolve. *)
Definition sagaABC : @Saga Journal unit :=
  {| processors := [handler "a" (notes "apply") (notes "undo");
                    handler "b" (notes "apply") (notes "undo");
                    handler "c" (notes "apply") (notes "undo")];
     repository := None |}.

(** The apply step of [b] rejects; every compensation resolves. *)
Definition sagaFailingB : @Saga Journal unit :=
  {| processors := [handler "a" (notes "apply") (notes "undo");
                    handler "b" (fails "b failed") (notes "undo");
                    handler "c" (notes "apply") (notes "undo")];
     repository := None |}.

(** The apply step of [a] rejects, and so does its compensation. *)
Definition sagaFailingTwice : @Saga Journal unit :=
  {| processors := [handler "a" (fails "a failed") (fails "undo failed")];
     repository := None |}.

(** No processor is registered. *)
Definition sagaEmpty : @Saga Journal unit :=
  {| processors := []; repository := None |}.

Definition sagaStored : @Saga Journal unit :=
  {| processors := processors sagaABC; repository := Some workingRepository |}.

Definition sagaStorageFails : @Saga Journal unit :=
  {| processors := processors sagaABC; repository := Some failingRepository |}.

Definition sagaStorageDown : @Saga Journal unit :=
  {| processors := processors sagaABC; repository := Some unreachableRepository |}.

(** Two processors that both claim every command. *)
Definition sagaOverlap : @Saga Journal unit :=
  {| processors := [ {| canProcess := fun _ => true;
                        process := notes "first"; rollBack := notes "first undo" |};
                     {| canProcess := fun _ => true;
                        process := notes "second"; rollBack := notes "second undo" |} ];
     repository := None |}.

(** The commands [a], [b], [c] as object literals, and the transaction and
    the world that initTransaction makes of them in [world0] when no
    identifier is supplied and no storage port is configured. *)
Definition cmdsABC : list Command := [literal "a"; literal "b"; literal "c"].

Definition txABC : @Transaction unit :=
  {| id := "00000000-0000-4000-8000-000000000000"; status := Pending;
     commands := cmdsABC; metadata := None;
     createdAt := 1000; updatedAt := 1001 |}.

Definition worldABC : @World Journal unit :=
  {| ext := []; dates := dates world0; dateReads := 2;
     uuids := uuids world0; uuidReads := 1; calls := [] |}.

Definition setCommands (cmds : list Command) (t : @Transaction unit)
    : @Transaction unit :=
  mkTransaction (id t) (status t) cmds (metadata t) (createdAt t) (updatedAt t).

(** A transaction that did not come from initTransaction: it has no id. *)
Definition txNoId : @Transaction unit :=
  mkTransaction "" Pending cmdsABC None 1000 1001.

(** The configurations behind the handlers of [sagaABC]. *)
Definition configsABC : list (@HandlerConfig Journal unit) :=
  [ {| handlerType := "a"; handlerExecute := notes "apply";
       handlerRollback := notes "undo" |};
    {| handlerType := "b"; handlerExecute := notes "apply";
       handlerRollback := notes "undo" |};
    {| handlerType := "c"; handlerExecute := notes "apply";
       handlerRollback := notes "undo" |} ].

(** No entry of the journal is empty. *)
Definition noEmptyNote (x : Journal) : Prop := Forall (fun s => s <> "") x.

(** A handler that notes in the journal of an outside world which also
    holds an in-memory repository. *)
Definition notesBeside (note : string)
    : Command -> @Transaction unit -> @MemoryOutside unit Journal
      -> Outcome unit * @MemoryOutside unit Journal :=
  fun command _ x =>
    (Resolved tt,
     mkMemoryOutside (stored x) (repositoryDates x) (repositoryDateReads x)
       (handlersOutside x ++ [(note ++ " " ++ type command)%string])).

Definition failsBeside (message : string)
    : Command -> @Transaction unit -> @MemoryOutside unit Journal
      -> Outcome unit * @MemoryOutside unit Journal :=
  fun _ _ x => (Rejected (Error message), x).

(** [sagaFailingB] with its transactions stored in memory. *)
Definition sagaInMemory : @Saga (@MemoryOutside unit Journal) unit :=
  {| processors :=
       [HandlerAdapter {| handlerType := "a";
                          handlerExecute := notesBeside "apply";
                          handlerRollback := notesBeside "undo" |};
        HandlerAdapter {| handlerType := "b";
                          handlerExecute := failsBeside "b failed";
                          handlerRollback := notesBeside "undo" |};
        HandlerAdapter {| handlerType := "c";
                          handlerExecute := notesBeside "apply";
                          handlerRollback := notesBeside "undo" |}];
     repository := Some InMemoryTransactionRepository |}.

(** [sagaABC] with its transactions stored in memory. *)
Definition sagaInMemoryABC : @Saga (@MemoryOutside unit Journal) unit :=
  {| processors :=
       [HandlerAdapter {| handlerType := "a";
                          handlerExecute := notesBeside "apply";
                          handlerRollback := notesBeside "undo" |};
        HandlerAdapter {| handlerType := "b";
                          handlerExecute := notesBeside "apply";
                          handlerRollback := notesBeside "undo" |};
        HandlerAdapter {| handlerType := "c";
                          handlerExecute := notesBeside "apply";
                          handlerRollback := notesBeside "undo" |}];
     repository := Some InMemoryTransactionRepository |}.

Definition worldInMemory : @World (@MemoryOutside unit Journal) unit :=
  {| ext := mkMemoryOutside [] (fun n => 5000 + n) 0 [];
     dates := fun n => 1000 + n; dateReads := 0;
     uuids := fun n => N.of_nat n; uuidReads := 0; calls := [] |}.

Section Properties.

Context {Ext TMetadata : Type}.

Local Abbreviation World := (@World Ext TMetadata).
Local Abbreviation Saga := (@Saga Ext TMetadata).
Local Abbreviation Transaction := (@Transaction TMetadata).
Local Abbreviation TransactionOptions := (@TransactionOptions TMetadata).
Local Abbreviation Event := (@Event TMetadata).
Local Abbreviation CommandProcessor := (@CommandProcessor Ext TMetadata).
Local Notation "m ;; k" := (bind m (fun _ => k)) (at level 61, right associativity).

Implicit Types (saga : Saga) (w : World) (t : Transaction)
  (action : TransactionProcessAction) (command : Command)
  (cmds : list Command) (ev : Event) (evs : list Event).

(** ** Lemmas on the world and on dispatch *)

Lemma afterCalls_nil (w : World) : afterCalls w (ext w) [] = w.
Proof. destruct w; unfold afterCalls; simpl; now rewrite app_nil_r. Qed.

Lemma afterCalls_afterCalls (w : World) x y e1 e2 :
  afterCalls (afterCalls w x e1) y e2 = afterCalls w y (e1 ++ e2).
Proof. unfold afterCalls; simpl; now rewrite app_assoc. Qed.

Lemma call_run {A} (ev : Event) (f : Ext -> Outcome A * Ext) (w : World) :
  call ev f w = (fst (f (ext w)), afterCalls w (snd (f (ext w))) [ev]).
Proof. unfold call. destruct (f (ext w)); reflexivity. Qed.

Lemma dispatch_run action i p command t w :
  dispatch action i p command t w =
  (fst (step action p command t (ext w)),
   afterCalls w (snd (step action p command t (ext w))) [stepCall action i command t]).
Proof. destruct action; simpl; apply call_run. Qed.

Lemma findIndex_find {A} (f : A -> bool) (l : list A) :
  match findIndex f l with
  | Some i =>
      exists a, nth_error l i = Some a /\ find f l = Some a /\ f a = true /\
        forall j b, j < i -> nth_error l j = Some b -> f b = false
  | None => find f l = None /\ forall a, In a l -> f a = false
  end.
Proof.
  induction l as [|a l IH]; simpl.
  - split; [reflexivity | intros ? []].
  - destruct (f a) eqn:Ea.
    + exists a. repeat split; auto. intros j b Hj; lia.
    + destruct (findIndex f l) as [i|]; simpl.
      * destruct IH as (b & Hn & Hf & Hb & Hlt).
        exists b. repeat split; auto.
        intros [|j] c Hj Hc; simpl in Hc.
        -- now inversion Hc; subst.
        -- apply (Hlt j); [lia | assumption].
      * destruct IH as [Hf Hall]. split; [assumption|].
        intros b [<-|Hb]; auto.
  Qed.

Lemma find_some_index (ps : list CommandProcessor) command p :
  find (fun q => canProcess q command) ps = Some p ->
  exists i, findIndex (fun q => canProcess q command) ps = Some i /\
            firstMatch ps command i.
Proof.
  intros Hf.
  pose proof (findIndex_find (fun q => canProcess q command) ps) as H.
  destruct (findIndex _ ps) as [i|].
  - exists i. split; [reflexivity|].
    destruct H as (a & Hn & Hfa & Ha & Hlt). now exists a.
  - destruct H as [H _]. congruence.
Qed.

Lemma find_none_index (ps : list CommandProcessor) command :
  find (fun q => canProcess q command) ps = None ->
  findIndex (fun q => canProcess q command) ps = None.
Proof.
  intros Hf.
  pose proof (findIndex_find (fun q => canProcess q command) ps) as H.
  destruct (findIndex _ ps) as [i|]; [|reflexivity].
  destruct H as (a & _ & Hfa & _). congruence.
Qed.

(** *** The command loop *)

Lemma forEach_cons_matched saga action t command rest p w :
  find (fun q => canProcess q command) (processors saga) = Some p ->
  exists i,
    firstMatch (processors saga) command i /\
    callOf saga action t command = [stepCall action i command t] /\
    forEachCommand saga action t (command :: rest) w =
    (dispatch action i p command t ;; forEachCommand saga action t rest) w.
Proof.
  intros Hf. destruct (find_some_index _ _ Hf) as (i & Hi & Hfm).
  exists i. unfold callOf. simpl. rewrite Hf, Hi. auto.
Qed.

Lemma forEach_cons_unmatched saga action t command rest w :
  find (fun q => canProcess q command) (processors saga) = None ->
  forEachCommand saga action t (command :: rest) w =
  (Rejected (NoProcessorFoundError command), w).
Proof. intros Hf. simpl. now rewrite Hf. Qed.

(** A run of the loop only calls processors, each the first match of its
    command, and leaves clocks and identifiers alone. *)
Lemma forEach_calls saga action t cmds : forall w o w',
  forEachCommand saga action t cmds w = (o, w') ->
  exists x evs,
    w' = afterCalls w x evs /\ Forall (dispatchedToFirst (processors saga)) evs.
Proof.
  induction cmds as [|c rest IH]; intros w o w' H.
  - inversion H; subst. exists (ext w'), []. now rewrite afterCalls_nil.
  - destruct (find (fun q => canProcess q c) (processors saga)) as [p|] eqn:Hf.
    + destruct (forEach_cons_matched saga action t c rest w Hf)
        as (i & Hfm & _ & Heq).
      rewrite Heq in H. unfold bind in H. rewrite dispatch_run in H.
      destruct (step action p c t (ext w)) as [[u|e] x1]; simpl in H.
      * apply IH in H. destruct H as (x & evs & -> & Hall).
        exists x, (stepCall action i c t :: evs).
        rewrite afterCalls_afterCalls. split; [reflexivity|].
        constructor; [|assumption]. destruct action; exact Hfm.
      * inversion H; subst. exists x1, [stepCall action i c t].
        split; [reflexivity|]. constructor; [|constructor].
        destruct action; exact Hfm.
    + rewrite forEach_cons_unmatched in H by assumption.
      inversion H; subst. exists (ext w'), []. now rewrite afterCalls_nil.
Qed.

(** The loop resolves exactly when every step runs, and then it has called
    one processor per command, in list order. *)
Lemma stepsRun_forEach saga action t cmds x x' :
  stepsRun saga action t cmds x x' ->
  forall w, ext w = x ->
  forEachCommand saga action t cmds w =
  (Resolved tt, afterCalls w x' (callsOf saga action t cmds)).
Proof.
  induction 1 as [x|c rest p x x1 x2 Hf Hs Hrun IH]; intros w Hw.
  - subst. simpl. unfold ret. now rewrite afterCalls_nil.
  - destruct (forEach_cons_matched saga action t c rest w Hf)
      as (i & _ & Hc & Heq).
    rewrite Heq. unfold bind. rewrite dispatch_run, Hw, Hs. simpl.
    rewrite IH by reflexivity. rewrite afterCalls_afterCalls.
    unfold callsOf. simpl. now rewrite Hc.
Qed.

Lemma forEach_resolved saga action t cmds : forall w u w',
  forEachCommand saga action t cmds w = (Resolved u, w') ->
  stepsRun saga action t cmds (ext w) (ext w') /\
  w' = afterCalls w (ext w') (callsOf saga action t cmds).
Proof.
  induction cmds as [|c rest IH]; intros w u w' H.
  - inversion H; subst. split; [constructor|]. now rewrite afterCalls_nil.
  - destruct (find (fun q => canProcess q c) (processors saga)) as [p|] eqn:Hf.
    + destruct (forEach_cons_matched saga action t c rest w Hf)
        as (i & _ & Hc & Heq).
      rewrite Heq in H. unfold bind in H. rewrite dispatch_run in H.
      destruct (step action p c t (ext w)) as [[[]|e] x1] eqn:Hs; simpl in H;
        [|discriminate].
      apply IH in H. destruct H as [Hrun Hw']. simpl in Hrun.
      split; [econstructor; eassumption|].
      rewrite Hw' at 1. rewrite afterCalls_afterCalls.
      unfold callsOf. simpl. now rewrite Hc.
    + rewrite forEach_cons_unmatched in H by assumption. discriminate.
Qed.

Lemma forEach_app saga action t pre rest w :
  forEachCommand saga action t (pre ++ rest) w =
  (forEachCommand saga action t pre ;; forEachCommand saga action t rest) w.
Proof.
  revert w. induction pre as [|c pre IH]; intros w; [reflexivity|].
  simpl.
  destruct (find _ (processors saga)); [|reflexivity].
  destruct (findIndex _ (processors saga)); [|reflexivity].
  unfold bind in *.
  destruct (dispatch action n c0 c t w) as [[u|e] w1]; [|reflexivity].
  apply IH.
Qed.

(** The loop stops at the first command nobody claims... *)
Lemma forEach_stops_unmatched saga action t pre command post w x :
  stepsRun saga action t pre (ext w) x ->
  find (fun q => canProcess q command) (processors saga) = None ->
  forEachCommand saga action t (pre ++ command :: post) w =
  (Rejected (NoProcessorFoundError command),
   afterCalls w x (callsOf saga action t pre)).
Proof.
  intros Hrun Hf. rewrite forEach_app. unfold bind.
  rewrite (stepsRun_forEach Hrun w eq_refl).
  now apply forEach_cons_unmatched.
Qed.

(** ... and at the first step that rejects. *)
Lemma forEach_stops_rejected saga action t pre command post w x p e x' :
  stepsRun saga action t pre (ext w) x ->
  find (fun q => canProcess q command) (processors saga) = Some p ->
  step action p command t x = (Rejected e, x') ->
  forEachCommand saga action t (pre ++ command :: post) w =
  (Rejected e,
   afterCalls w x' (callsOf saga action t pre ++ callOf saga action t command)).
Proof.
  intros Hrun Hf Hs. rewrite forEach_app. unfold bind at 1.
  rewrite (stepsRun_forEach Hrun w eq_refl).
  destruct (forEach_cons_matched saga action t command post
              (afterCalls w x (callsOf saga action t pre)) Hf)
    as (i & _ & Hc & Heq).
  rewrite Heq. unfold bind. rewrite dispatch_run. simpl ext. rewrite Hs. simpl.
  now rewrite afterCalls_afterCalls, Hc.
Qed.

(** *** Identifiers and initialization *)

Lemma uuidString_not_empty (v : N) : uuidString v <> "".
Proof. unfold uuidString. cbn [hexField append]. discriminate. Qed.

Lemma uuidString_length (v : N) : String.length (uuidString v) = 36.
Proof. unfold uuidString. cbn [hexField append String.length]. reflexivity. Qed.

Lemma chooseId_supplied options w s :
  optionsId options = Some s -> s <> "" -> chooseId options w = (s, w).
Proof.
  intros Ho Hs. unfold chooseId. rewrite Ho.
  destruct (String.eqb_spec s ""); [contradiction | reflexivity].
Qed.

Lemma chooseId_fresh options w :
  optionsId options = None \/ optionsId options = Some "" ->
  chooseId options w = randomUUID w.
Proof. intros [Ho|Ho]; unfold chooseId; now rewrite Ho. Qed.

Lemma chooseId_not_empty options w : fst (chooseId options w) <> "".
Proof.
  unfold chooseId. destruct (optionsId options) as [s|].
  - destruct (String.eqb_spec s ""); [apply uuidString_not_empty | assumption].
  - apply uuidString_not_empty.
Qed.

(** What the object literal of initTransaction holds, and what building it
    reads from the world. *)
Lemma newTransaction_run cmds options w :
  newTransaction cmds options w =
  (mkTransaction (fst (chooseId options w)) Pending cmds
     (optionsMetadata options)
     (dates w (dateReads w)) (dates w (S (dateReads w))),
   mkWorld (ext w) (dates w) (S (S (dateReads w))) (uuids w)
     (uuidReads (snd (chooseId options w))) (calls w)).
Proof.
  unfold newTransaction, chooseId.
  destruct (optionsId options) as [s|]; [destruct (s =? "")%string|];
    reflexivity.
Qed.

(** initTransaction on a non-empty list: build the transaction, then hand it
    to the storage port if there is one. *)
Lemma initTransaction_run saga cmds options w :
  cmds <> [] ->
  initTransaction saga (Some cmds) options w =
  let t := fst (newTransaction cmds options w) in
  let w1 := snd (newTransaction cmds options w) in
  match repository saga with
  | None => (Resolved t, w1)
  | Some r =>
      (match fst (create r t (ext w)) with
       | Resolved _ => Resolved t
       | Rejected e => Rejected e
       end,
       afterCalls w1 (snd (create r t (ext w))) [CallCreate t])
  end.
Proof.
  intros Hne. destruct cmds as [|c rest]; [contradiction|].
  unfold initTransaction.
  rewrite newTransaction_run. cbn zeta. simpl fst; simpl snd.
  destruct (repository saga) as [r|]; [|reflexivity].
  rewrite call_run. simpl ext.
  destruct (create r _ (ext w)) as [[u|e] x]; reflexivity.
Qed.

Lemma processTransaction_initialized saga t action w :
  id t <> "" ->
  processTransaction saga t action w =
  forEachCommand saga action t
    (match action with RollBack => rev (commands t) | Commit => commands t end) w.
Proof.
  intros Hid. unfold processTransaction.
  destruct (String.eqb_spec (id t) ""); [contradiction | reflexivity].
Qed.

(** C5 (as the code has it): on a null or an empty command list
    initTransaction rejects with the error whose message is
    "Commands can't be null or empty", whatever the options, and the world
    is left as it was: no identifier or date was read and no call was made,
    in particular none to the storage port's create. *)
Theorem initTransaction_rejects_empty saga (cmds : option (list Command))
    (options : option TransactionOptions) w :
  cmds = None \/ cmds = Some [] ->
  initTransaction saga cmds options w =
  (Rejected (Error "Commands can't be null or empty"), w).
Proof. intros [->| ->]; reflexivity. Qed.

(** C6 (as the code has it): for a non-empty command list, when no storage
    port is configured or its create call resolves, initTransaction returns
    a transaction whose commands are the input list in the same order, whose
    status is Pending, and whose id is the supplied identifier when a
    non-empty one is given, and a freshly generated one when none or the
    empty string is given. *)
Theorem initTransaction_returns_pending saga cmds
    (options : option TransactionOptions) w :
  cmds <> [] ->
  (forall r, repository saga = Some r ->
     fst (create r (fst (newTransaction cmds options w)) (ext w)) = Resolved tt) ->
  exists t w',
    initTransaction saga (Some cmds) options w = (Resolved t, w') /\
    commands t = cmds /\
    status t = Pending /\
    (forall s, optionsId options = Some s -> s <> "" -> id t = s) /\
    (optionsId options = None \/ optionsId options = Some "" ->
     id t = fst (randomUUID w)).
Proof.
  intros Hne Hcreate. rewrite initTransaction_run by assumption. cbn zeta.
  exists (fst (newTransaction cmds options w)).
  assert (Hfacts :
    commands (fst (newTransaction cmds options w)) = cmds /\
    status (fst (newTransaction cmds options w)) = Pending /\
    (forall s, optionsId options = Some s -> s <> "" ->
       id (fst (newTransaction cmds options w)) = s) /\
    (optionsId options = None \/ optionsId options = Some "" ->
     id (fst (newTransaction cmds options w)) = fst (randomUUID w))).
  { rewrite newTransaction_run. simpl. repeat split.
    - intros s Ho Hs. now rewrite (chooseId_supplied _ w Ho Hs).
    - intros Ho. now rewrite (chooseId_fresh _ w Ho). }
  destruct (repository saga) as [r|] eqn:Hr.
  - rewrite (Hcreate r eq_refl). eexists. split; [reflexivity | exact Hfacts].
  - eexists. split; [reflexivity | exact Hfacts].
Qed.

(** C10: for a non-empty command list initTransaction either returns the
    transaction it built or rejects with the error of the storage port's
    create call. The id of that transaction is never empty: an empty (or
    absent) supplied identifier is not used, a freshly generated one takes
    its place. So for a transaction that came from initTransaction, and for
    any later state of it under the same id, the guard of processTransaction
    is not taken, at commit or at rollback: the "Only initialized
    transactions can be processed" error cannot arise. *)
Theorem initTransaction_id_not_empty saga cmds
    (options : option TransactionOptions) w :
  cmds <> [] ->
  exists t,
    ((exists w', initTransaction saga (Some cmds) options w = (Resolved t, w')) \/
     (exists r e w', repository saga = Some r /\
        fst (create r t (ext w)) = Rejected e /\
        initTransaction saga (Some cmds) options w = (Rejected e, w'))) /\
    id t <> "" /\
    (optionsId options = None \/ optionsId options = Some "" ->
     id t = fst (randomUUID w)) /\
    forall t', id t' = id t ->
    forall action w1,
      processTransaction saga t' action w1 =
      forEachCommand saga action t'
        (match action with RollBack => rev (commands t') | Commit => commands t' end)
        w1.
Proof.
  intros Hne. rewrite initTransaction_run by assumption. cbn zeta.
  exists (fst (newTransaction cmds options w)).
  assert (Hid : id (fst (newTransaction cmds options w)) <> "").
  { rewrite newTransaction_run. simpl. apply chooseId_not_empty. }
  split; [|split; [exact Hid|split]].
  - destruct (repository saga) as [r|] eqn:Hr.
    + destruct (fst (create r (fst (newTransaction cmds options w)) (ext w)))
        as [u|e] eqn:Hc.
      * left. eexists. reflexivity.
      * right. exists r, e. eexists. repeat split; auto.
    + left. eexists. reflexivity.
  - intros Ho. rewrite newTransaction_run. simpl.
    now rewrite (chooseId_fresh _ w Ho).
  - intros t' Ht' action w1. apply processTransaction_initialized.
    now rewrite Ht'.
Qed.

(** *** Commit and rollback *)

(** Both have the same shape: process, then set the status and the date,
    then tell the storage port. *)
Lemma settle_run saga action t w :
  settle saga action t w =
  match processTransaction saga t action w with
  | (Rejected e, w1) => (Rejected e, t, w1)
  | (Resolved _, w1) =>
      let t' := setUpdatedAt (dates w1 (dateReads w1))
                             (setStatus (finalStatus action) t) in
      match repository saga with
      | None => (Resolved tt, t', snd (newDate w1))
      | Some r =>
          let u := {| updStatus := Some (finalStatus action);
                      updUpdatedAt := Some (updatedAt t') |} in
          (fst (findByIdAndUpdate r (id t) u (ext w1)), t',
           afterCalls (snd (newDate w1))
             (snd (findByIdAndUpdate r (id t) u (ext w1))) [updateCall t'])
      end
  end.
Proof.
  destruct action; unfold settle, commitTransaction, rollBackTransaction;
    destruct (processTransaction saga t _ w) as [[u|e] w1]; try reflexivity;
    cbn zeta; unfold newDate; cbn iota;
    destruct (repository saga) as [r|]; try reflexivity;
    unfold call, updateCall;
    cbn [ext record setExt id updatedAt status setUpdatedAt setStatus
         finalStatus fst snd];
    match goal with
    | |- context [findByIdAndUpdate r ?i ?u ?x] =>
        destruct (findByIdAndUpdate r i u x); reflexivity
    end.
Qed.


(** What execute does once its commit phase has rejected with an error E:
    it runs rollBackTransaction on the same transaction object, in the
    world commit left. If that rollback resolves, execute rejects with E;
    if the rollback itself rejects with an error E', execute rejects with
    E' and E is lost. *)
Theorem execute_after_commit_failure saga (cmds : option (list Command))
    (options : option TransactionOptions) w t w1 e t1 w2 :
  initTransaction saga cmds options w = (Resolved t, w1) ->
  commitTransaction saga t w1 = (Rejected e, t1, w2) ->
  exists o t2 w3,
    rollBackTransaction saga t1 w2 = (o, t2, w3) /\
    execute saga cmds options w =
    (match o with
     | Resolved _ => Rejected e
     | Rejected e' => Rejected e'
     end, Some t2, w3).
Proof.
  intros Hinit Hcommit.
  destruct (rollBackTransaction saga t1 w2) as [[o t2] w3] eqn:Hroll.
  exists o, t2, w3. split; [reflexivity|].
  unfold execute. rewrite Hinit, Hcommit, Hroll. now destruct o.
Qed.


(** *** What a pass calls *)

Lemma processTransaction_passOrder saga t action w :
  id t <> "" ->
  processTransaction saga t action w =
  forEachCommand saga action t (passOrder action t) w.
Proof. intros H. rewrite processTransaction_initialized by assumption. now destruct action. Qed.

Lemma processTransaction_calls saga t action w o w' :
  processTransaction saga t action w = (o, w') ->
  exists x evs,
    w' = afterCalls w x evs /\ Forall (dispatchedToFirst (processors saga)) evs.
Proof.
  unfold processTransaction. destruct (id t =? "")%string.
  - intros H. inversion H; subst. exists (ext w'), [].
    now rewrite afterCalls_nil.
  - apply forEach_calls.
Qed.

Lemma processTransaction_resolved saga t action w u w' :
  processTransaction saga t action w = (Resolved u, w') ->
  id t <> "" /\
  stepsRun saga action t (passOrder action t) (ext w) (ext w') /\
  w' = afterCalls w (ext w') (callsOf saga action t (passOrder action t)).
Proof.
  intros H. assert (Hid : id t <> "").
  { unfold processTransaction in H.
    destruct (String.eqb_spec (id t) ""); [discriminate | assumption]. }
  split; [assumption|].
  rewrite processTransaction_passOrder in H by assumption.
  now apply forEach_resolved in H.
Qed.

Lemma stepsRun_dispatched saga action t cmds x x' :
  stepsRun saga action t cmds x x' ->
  Forall2 (dispatchedBy saga action t) cmds (callsOf saga action t cmds).
Proof.
  induction 1 as [x|c rest p x x1 x2 Hf Hs Hrun IH]; [constructor|].
  destruct (find_some_index _ _ Hf) as (i & Hi & Hfm).
  unfold callsOf, callOf. simpl. rewrite Hi. simpl.
  constructor; [now exists i | exact IH].
Qed.

Lemma callsOf_app saga action t pre post :
  callsOf saga action t (pre ++ post) =
  callsOf saga action t pre ++ callsOf saga action t post.
Proof. apply flat_map_app. Qed.

Lemma find_none_all {A} (f : A -> bool) (l : list A) :
  (forall a, In a l -> f a = false) -> find f l = None.
Proof.
  induction l as [|a l IH]; intros H; [reflexivity|]. simpl.
  rewrite (H a (or_introl eq_refl)). apply IH. intros b Hb. apply H. now right.
Qed.

Lemma dispatchedToFirst_core (ps : list CommandProcessor) ev :
  dispatchedToFirst ps ev -> isCoreCall ev = true /\ isStorageCall ev = false.
Proof. destruct ev; simpl; intros H; try contradiction; auto. Qed.

(** A settled transaction: what it holds and what was called on the way. *)
Lemma settle_resolved saga action t w u t' w' :
  settle saga action t w = (Resolved u, t', w') ->
  id t <> "" /\
  t' = setUpdatedAt (fst (newDate w)) (setStatus (finalStatus action) t) /\
  (exists x, stepsRun saga action t (passOrder action t) (ext w) x) /\
  calls w' = calls w ++ callsOf saga action t (passOrder action t)
                     ++ ifStored saga [updateCall t'].
Proof.
  rewrite settle_run.
  destruct (processTransaction saga t action w) as [[[]|e] w1] eqn:Hp;
    [|discriminate].
  apply processTransaction_resolved in Hp. destruct Hp as (Hid & Hrun & Hw1).
  assert (Hd : dates w1 (dateReads w1) = fst (newDate w)) by (now rewrite Hw1).
  assert (Hc : calls w1 = calls w ++ callsOf saga action t (passOrder action t))
    by (now rewrite Hw1).
  cbn zeta. rewrite Hd. unfold ifStored.
  destruct (repository saga) as [r|]; intros H; inversion H; subst t' w'; clear H.
  - repeat split; auto; [now exists (ext w1)|].
    simpl. rewrite Hc. now rewrite <- app_assoc.
  - repeat split; auto; [now exists (ext w1)|].
    simpl. rewrite Hc. now rewrite app_nil_r.
Qed.

Lemma settle_calls saga action t w :
  exists evs,
    calls (snd (settle saga action t w)) = calls w ++ evs /\
    Forall (fun ev => isCoreCall ev = true) evs.
Proof.
  rewrite settle_run.
  destruct (processTransaction saga t action w) as [[u|e] w1] eqn:Hp;
    apply processTransaction_calls in Hp; destruct Hp as (x & evs & -> & Hall);
    assert (Hcore : Forall (fun ev => isCoreCall ev = true) evs)
      by (eapply Forall_impl; [|exact Hall]; intros ev Hev;
          now apply dispatchedToFirst_core in Hev).
  - cbn zeta. destruct (repository saga) as [r|]; simpl.
    + eexists. rewrite <- app_assoc. split; [reflexivity|].
      apply Forall_app. split; [assumption|]. now repeat constructor.
    + now exists evs.
  - now exists evs.
Qed.

Lemma initTransaction_resolved saga (input : option (list Command))
    options w t w1 :
  initTransaction saga input options w = (Resolved t, w1) ->
  exists cmds,
    input = Some cmds /\ cmds <> [] /\
    t = fst (newTransaction cmds options w) /\
    id t <> "" /\ commands t = cmds /\ status t = Pending /\
    calls w1 = calls w ++ ifStored saga [CallCreate t].
Proof.
  intros H. destruct input as [cmds|]; [|discriminate].
  destruct cmds as [|c rest]; [discriminate|].
  exists (c :: rest). rewrite initTransaction_run in H by discriminate.
  cbn zeta in H. unfold ifStored.
  assert (Hid : id (fst (newTransaction (c :: rest) options w)) <> "").
  { rewrite newTransaction_run. simpl. apply chooseId_not_empty. }
  destruct (repository saga) as [r|].
  - destruct (fst (create r _ (ext w))); inversion H; subst.
    repeat split; auto; try discriminate; now rewrite newTransaction_run.
  - inversion H; subst.
    repeat split; auto; try discriminate; rewrite newTransaction_run; simpl;
      auto using app_nil_r.
Qed.

Lemma initTransaction_calls saga (input : option (list Command)) options w :
  exists evs,
    calls (snd (initTransaction saga input options w)) = calls w ++ evs /\
    Forall (fun ev => isCoreCall ev = true) evs.
Proof.
  destruct input as [[|c rest]|];
    try (exists []; simpl; now rewrite app_nil_r).
  rewrite initTransaction_run by discriminate. cbn zeta.
  rewrite newTransaction_run.
  destruct (repository saga) as [r|]; simpl.
  - eexists. split; [reflexivity|]. now repeat constructor.
  - exists []. now rewrite app_nil_r.
Qed.

(** *** The claims on dispatch, compensation and storage *)

(** C8: at commit and at rollback alike, dispatch selects for every command
    the first processor, in registration order, whose canProcess holds of
    it, the one [Array.prototype.find] returns, and invokes its step: the
    step acts on the outside world, the call is made on that processor, and
    the loop goes on with the next command only if the step resolved; when
    no processor claims the command the loop stops with a
    NoProcessorFoundError. A pass runs this loop over the commands in its
    order; when it resolves it has made exactly one call per command, each
    on the first match of its command. Whatever the outcome, every call it
    made is on a first match, so when two registered processors both claim
    a command, no call for that command is made on the later one. *)
Theorem dispatch_first_match saga t action w :
  (forall command rest w0,
     match find (fun q => canProcess q command) (processors saga) with
     | Some p =>
         exists i,
           firstMatch (processors saga) command i /\
           nth_error (processors saga) i = Some p /\
           forEachCommand saga action t (command :: rest) w0 =
           match fst (step action p command t (ext w0)) with
           | Resolved _ =>
               forEachCommand saga action t rest
                 (afterCalls w0 (snd (step action p command t (ext w0)))
                    [stepCall action i command t])
           | Rejected e =>
               (Rejected e,
                afterCalls w0 (snd (step action p command t (ext w0)))
                  [stepCall action i command t])
           end
     | None =>
         (forall q, In q (processors saga) -> canProcess q command = false) /\
         forEachCommand saga action t (command :: rest) w0 =
         (Rejected (NoProcessorFoundError command), w0)
     end) /\
  (id t <> "" ->
   processTransaction saga t action w =
   forEachCommand saga action t (passOrder action t) w) /\
  (forall u w',
     processTransaction saga t action w = (Resolved u, w') ->
     stepsRun saga action t (passOrder action t) (ext w) (ext w') /\
     calls w' = calls w ++ callsOf saga action t (passOrder action t) /\
     Forall2 (dispatchedBy saga action t) (passOrder action t)
       (callsOf saga action t (passOrder action t))) /\
  exists evs,
    calls (snd (processTransaction saga t action w)) = calls w ++ evs /\
    Forall (dispatchedToFirst (processors saga)) evs /\
    forall i j pi pj command t',
      i < j ->
      nth_error (processors saga) i = Some pi ->
      nth_error (processors saga) j = Some pj ->
      canProcess pi command = true ->
      canProcess pj command = true ->
      ~ In (CallProcess j command t') evs /\
      ~ In (CallRollBack j command t') evs.
Proof.
  split; [|split; [|split]].
  - intros command rest w0.
    destruct (find (fun q => canProcess q command) (processors saga))
      as [p|] eqn:Hf.
    + destruct (forEach_cons_matched saga action t command rest w0 Hf)
        as (i & Hfm & _ & Heq).
      exists i. split; [exact Hfm|]. split.
      * destruct Hfm as (p' & Hn & Hf' & _). congruence.
      * rewrite Heq. unfold bind. rewrite dispatch_run.
        now destruct (fst (step action p command t (ext w0))).
    + split; [exact (find_none _ _ Hf)|].
      now apply forEach_cons_unmatched.
  - apply processTransaction_passOrder.
  - intros u w' Hp. apply processTransaction_resolved in Hp.
    destruct Hp as (_ & Hrun & Hw'). split; [exact Hrun|]. split.
    + now rewrite Hw' at 1.
    + exact (stepsRun_dispatched Hrun).
  - destruct (processTransaction saga t action w) as [o w'] eqn:Hp.
    apply processTransaction_calls in Hp. destruct Hp as (x & evs & -> & Hall).
    exists evs. split; [reflexivity|]. split; [assumption|].
    intros i j pi pj command t' Hij Hi Hj Hpi Hpj.
    rewrite Forall_forall in Hall.
    split; intros Hin; apply Hall in Hin; simpl in Hin;
      destruct Hin as (p & _ & _ & _ & Hmin);
      rewrite (Hmin i pi Hij Hi) in Hpi; discriminate.
Qed.

(** C3 (as the code has it): when no registered processor claims a command,
    a commit that reaches it rejects with a NoProcessorFoundError, leaves the
    transaction as it was and attempts no later command. The message of the
    error is "No processor found for command: " followed by the name of the
    command's constructor ("Object" for an object literal, whatever its type
    field), or by "object" when there is none; the type field is not in it.
    For the single command alone, execute rejects with that error in the
    world initialization left: no apply or compensate step is invoked. *)
Theorem no_processor_found saga command :
  (forall p, In p (processors saga) -> canProcess p command = false) ->
  (forall t pre post w x,
     id t <> "" ->
     commands t = pre ++ command :: post ->
     stepsRun saga Commit t pre (ext w) x ->
     commitTransaction saga t w =
     (Rejected (NoProcessorFoundError command), t,
      afterCalls w x (callsOf saga Commit t pre))) /\
  errName (NoProcessorFoundError command) = "NoProcessorFoundError" /\
  errMessage (NoProcessorFoundError command) =
    ("No processor found for command: " ++ describeCommand command)%string /\
  (forall ty, describeCommand (literal ty) = "Object") /\
  (forall options w t w1,
     initTransaction saga (Some [command]) options w = (Resolved t, w1) ->
     execute saga (Some [command]) options w =
     (Rejected (NoProcessorFoundError command), Some t, w1)).
Proof.
  intros Hnone.
  assert (Hf : find (fun q => canProcess q command) (processors saga) = None)
    by (now apply find_none_all).
  assert (Hcommit : forall t pre post w x,
     id t <> "" ->
     commands t = pre ++ command :: post ->
     stepsRun saga Commit t pre (ext w) x ->
     commitTransaction saga t w =
     (Rejected (NoProcessorFoundError command), t,
      afterCalls w x (callsOf saga Commit t pre))).
  { intros t pre post w x Hid Hcmds Hrun.
    change (commitTransaction saga t w) with (settle saga Commit t w).
    rewrite settle_run, processTransaction_passOrder by assumption.
    simpl passOrder. rewrite Hcmds.
    now rewrite forEach_stops_unmatched with (x := x). }
  split; [exact Hcommit|]. repeat split.
  intros options w t w1 Hinit.
  destruct (initTransaction_resolved _ _ _ _ Hinit)
    as (cmds & Hin & _ & _ & Hid & Hcmds & _).
  injection Hin as <-.
  unfold execute. rewrite Hinit.
  rewrite (Hcommit t [] [] w1 (ext w1) Hid Hcmds (stepsRun_nil _ _ _ _)).
  simpl callsOf. rewrite afterCalls_nil.
  change (rollBackTransaction saga t w1) with (settle saga RollBack t w1).
  rewrite settle_run, processTransaction_passOrder by assumption.
  unfold passOrder. rewrite Hcmds. simpl rev.
  now rewrite forEach_cons_unmatched.
Qed.

Lemma callsOf_snoc saga action t pre command :
  callsOf saga action t (pre ++ [command]) =
  callsOf saga action t pre ++ callOf saga action t command.
Proof. rewrite callsOf_app. unfold callsOf. simpl. now rewrite app_nil_r. Qed.

Lemma callsOf_not_storage saga action t cmds :
  Forall (fun ev => isStorageCall ev = false) (callsOf saga action t cmds).
Proof.
  induction cmds as [|c rest IH]; [constructor|].
  unfold callsOf, callOf. simpl.
  destruct (findIndex _ (processors saga)); [|exact IH].
  constructor; [now destruct action | exact IH].
Qed.

(** C2 (as the code has it): when the apply steps of the commands before
    the k-th resolve and the apply step of the k-th rejects with an error E,
    the rollback that execute runs goes through the whole command list in
    reverse: provided that rollback resolves, the compensate step has been
    invoked once for every command, n, n-1, ..., 1, those after the k-th
    included, each on the first processor that claims it; the transaction is
    left RolledBack and execute rejects with E. *)
Theorem execute_compensates_every_command saga pre command post
    (options : option TransactionOptions) w t w1 x p e x' t' w' :
  initTransaction saga (Some (pre ++ command :: post)) options w
    = (Resolved t, w1) ->
  stepsRun saga Commit t pre (ext w1) x ->
  find (fun q => canProcess q command) (processors saga) = Some p ->
  process p command t x = (Rejected e, x') ->
  rollBackTransaction saga t
    (afterCalls w1 x' (callsOf saga Commit t (pre ++ [command])))
    = (Resolved tt, t', w') ->
  execute saga (Some (pre ++ command :: post)) options w
    = (Rejected e, Some t', w') /\
  status t' = RolledBack /\
  calls w' = calls w1 ++ callsOf saga Commit t (pre ++ [command])
                      ++ callsOf saga RollBack t (rev (pre ++ command :: post))
                      ++ ifStored saga [updateCall t'] /\
  Forall2 (dispatchedBy saga Commit t) (pre ++ [command])
          (callsOf saga Commit t (pre ++ [command])) /\
  Forall2 (dispatchedBy saga RollBack t) (rev (pre ++ command :: post))
          (callsOf saga RollBack t (rev (pre ++ command :: post))).
Proof.
  intros Hinit Hpre Hf Hstep Hroll.
  destruct (initTransaction_resolved _ _ _ _ Hinit)
    as (cmds & Hin & _ & _ & Hid & Hcmds & _).
  injection Hin as <-.
  assert (Hcommit : commitTransaction saga t w1 =
    (Rejected e, t, afterCalls w1 x' (callsOf saga Commit t (pre ++ [command])))).
  { change (commitTransaction saga t w1) with (settle saga Commit t w1).
    rewrite settle_run, processTransaction_passOrder by assumption.
    simpl passOrder. rewrite Hcmds, callsOf_snoc.
    now rewrite forEach_stops_rejected with (x := x) (p := p) (e := e) (x' := x'). }
  split.
  { unfold execute. now rewrite Hinit, Hcommit, Hroll. }
  change (rollBackTransaction saga t) with (settle saga RollBack t) in Hroll.
  apply settle_resolved in Hroll.
  destruct Hroll as (_ & Ht' & (x2 & Hrun) & Hcalls).
  unfold passOrder in Hrun, Hcalls. rewrite Hcmds in Hrun, Hcalls.
  split; [now rewrite Ht'|]. split.
  { rewrite Hcalls. simpl calls. now rewrite <- app_assoc. }
  split; [|exact (stepsRun_dispatched Hrun)].
  rewrite callsOf_snoc. apply Forall2_app; [exact (stepsRun_dispatched Hpre)|].
  destruct (find_some_index _ _ Hf) as (i & Hi & Hfm).
  unfold callOf. rewrite Hi. constructor; [now exists i | constructor].
Qed.

(** C7 (as the code has it): for a non-empty command list, when no storage
    port is configured or the create call and the update call that execute
    makes on it resolve, and every command is claimed by a registered
    processor whose apply step resolves, execute returns the transaction
    with status Completed, and the apply step has been invoked once per
    command, in list order, each on the first processor that claims the
    command. *)
Theorem execute_completes saga cmds (options : option TransactionOptions) w x :
  cmds <> [] ->
  (forall r, repository saga = Some r ->
     fst (create r (fst (newTransaction cmds options w)) (ext w)) = Resolved tt) ->
  stepsRun saga Commit (fst (newTransaction cmds options w)) cmds
    (ext (snd (initTransaction saga (Some cmds) options w))) x ->
  (forall r, repository saga = Some r ->
     fst (findByIdAndUpdate r (id (fst (newTransaction cmds options w)))
            {| updStatus := Some Completed;
               updUpdatedAt :=
                 Some (fst (newDate (snd (initTransaction saga (Some cmds)
                                            options w)))) |} x)
     = Resolved tt) ->
  exists t' w',
    execute saga (Some cmds) options w = (Resolved t', Some t', w') /\
    status t' = Completed /\
    commands t' = cmds /\
    id t' = id (fst (newTransaction cmds options w)) /\
    calls w' =
      calls w ++ ifStored saga [CallCreate (fst (newTransaction cmds options w))]
              ++ callsOf saga Commit (fst (newTransaction cmds options w)) cmds
              ++ ifStored saga [updateCall t'] /\
    Forall2 (dispatchedBy saga Commit (fst (newTransaction cmds options w)))
      cmds (callsOf saga Commit (fst (newTransaction cmds options w)) cmds).
Proof.
  intros Hne Hcreate Hrun Hupdate.
  set (t := fst (newTransaction cmds options w)) in *.
  destruct (initTransaction saga (Some cmds) options w) as [o w1] eqn:Hinit.
  assert (Ho : o = Resolved t).
  { rewrite initTransaction_run in Hinit by assumption. cbn zeta in Hinit.
    fold t in Hinit. destruct (repository saga) as [r|] eqn:Hr.
    - rewrite (Hcreate r eq_refl) in Hinit. now inversion Hinit.
    - now inversion Hinit. }
  subst o. simpl in Hrun, Hupdate.
  destruct (initTransaction_resolved _ _ _ _ Hinit)
    as (cmds' & Hin & _ & _ & Hid & Hcmds & _ & Hcalls1).
  injection Hin as <-.
  destruct (commitTransaction saga t w1) as [[o t'] w'] eqn:Hcommit.
  assert (Ho : o = Resolved tt).
  { change (commitTransaction saga t w1) with (settle saga Commit t w1) in Hcommit.
    rewrite settle_run, processTransaction_passOrder in Hcommit by assumption.
    simpl passOrder in Hcommit. rewrite Hcmds in Hcommit.
    rewrite (stepsRun_forEach Hrun w1 eq_refl) in Hcommit.
    cbn zeta in Hcommit. destruct (repository saga) as [r|] eqn:Hr.
    - simpl in Hcommit. rewrite (Hupdate r eq_refl) in Hcommit.
      now inversion Hcommit.
    - now inversion Hcommit. }
  subst o. exists t', w'. split.
  { unfold execute. now rewrite Hinit, Hcommit. }
  change (commitTransaction saga t w1) with (settle saga Commit t w1) in Hcommit.
  apply settle_resolved in Hcommit.
  destruct Hcommit as (_ & Ht' & _ & Hcalls).
  unfold passOrder in Hcalls. rewrite Hcmds in Hcalls.
  repeat split.
  - now rewrite Ht'.
  - now rewrite Ht'.
  - now rewrite Ht'.
  - rewrite Hcalls, Hcalls1. now rewrite <- app_assoc.
  - exact (stepsRun_dispatched Hrun).
Qed.

Lemma execute_calls saga (input : option (list Command)) options w :
  exists evs,
    calls (snd (execute saga input options w)) = calls w ++ evs /\
    Forall (fun ev => isCoreCall ev = true) evs.
Proof.
  unfold execute.
  destruct (initTransaction_calls saga input options w) as (e0 & H0 & C0).
  destruct (initTransaction saga input options w) as [[t|e] w1];
    simpl in H0; [|now exists e0].
  destruct (settle_calls saga Commit t w1) as (e1 & H1 & C1).
  change (settle saga Commit t w1) with (commitTransaction saga t w1) in H1.
  destruct (commitTransaction saga t w1) as [[[u|e] t1] w2]; simpl in H1.
  - exists (e0 ++ e1). cbn [snd]. rewrite H1, H0, <- app_assoc.
    split; [reflexivity | now apply Forall_app].
  - destruct (settle_calls saga RollBack t1 w2) as (e2 & H2 & C2).
    change (settle saga RollBack t1 w2) with (rollBackTransaction saga t1 w2) in H2.
    destruct (rollBackTransaction saga t1 w2) as [[[u|e'] t2] w3]; simpl in H2;
      exists (e0 ++ e1 ++ e2); cbn [snd]; rewrite H2, H1, H0, <- !app_assoc;
      (split; [reflexivity | repeat (apply Forall_app; split); assumption]).
Qed.

(** C9 (as the code has it): with a storage port configured, every call of
    initTransaction on a non-empty command list calls the port's create
    once, with the transaction it returns when create resolves, and
    nothing else; on a null or empty list it rejects before that and create
    is not called. Every commit or
    rollback that resolves has called findByIdAndUpdate once, after the
    processor calls, with the transaction's id, the final status (Completed
    or RolledBack) and the date just read into updatedAt. No call that
    execute, initTransaction, commit or rollback makes is a findById,
    deleteById or findByStatus. *)
Theorem storage_calls saga r :
  repository saga = Some r ->
  (forall cmds options w,
     cmds <> [] ->
     calls (snd (initTransaction saga (Some cmds) options w)) =
     calls w ++ [CallCreate (fst (newTransaction cmds options w))] /\
     forall t w',
       initTransaction saga (Some cmds) options w = (Resolved t, w') ->
       t = fst (newTransaction cmds options w)) /\
  (forall (input : option (list Command)) options w,
     input = None \/ input = Some [] ->
     calls (snd (initTransaction saga input options w)) = calls w) /\
  (forall action t w t' w',
     settle saga action t w = (Resolved tt, t', w') ->
     status t' = finalStatus action /\
     updatedAt t' = fst (newDate w) /\
     exists evs,
       calls w' =
         calls w ++ evs ++
         [CallFindByIdAndUpdate (id t)
            {| updStatus := Some (finalStatus action);
               updUpdatedAt := Some (updatedAt t') |}] /\
       Forall (fun ev => isStorageCall ev = false) evs) /\
  (forall (input : option (list Command)) options w,
     exists evs,
       calls (snd (execute saga input options w)) = calls w ++ evs /\
       Forall (fun ev => isCoreCall ev = true) evs) /\
  (forall (input : option (list Command)) options w,
     exists evs,
       calls (snd (initTransaction saga input options w)) = calls w ++ evs /\
       Forall (fun ev => isCoreCall ev = true) evs) /\
  (forall action t w,
     exists evs,
       calls (snd (settle saga action t w)) = calls w ++ evs /\
       Forall (fun ev => isCoreCall ev = true) evs).
Proof.
  intros Hr. split; [|split; [|split; [|split; [|split]]]].
  - intros cmds options w Hne. split.
    + rewrite initTransaction_run by assumption.
      cbn zeta. rewrite Hr. simpl. now rewrite newTransaction_run.
    + intros t w' H. apply initTransaction_resolved in H.
      destruct H as (cmds' & Hin & _ & Ht & _). now injection Hin as <-.
  - intros input options w [->| ->]; reflexivity.
  - intros action t w t' w' H. apply settle_resolved in H.
    destruct H as (_ & Ht' & _ & Hcalls).
    split; [now rewrite Ht'|]. split; [now rewrite Ht'|].
    exists (callsOf saga action t (passOrder action t)).
    split; [|apply callsOf_not_storage].
    rewrite Hcalls. unfold ifStored. rewrite Hr. now rewrite Ht'.
  - apply execute_calls.
  - apply initTransaction_calls.
  - apply settle_calls.
Qed.

End Properties.



(** ** The model run on concrete sagas *)

Example run_initABC :
  initTransaction sagaABC (Some cmdsABC) None world0 = (Resolved txABC, worldABC).
Proof. reflexivity. Qed.

Example run_scenarioA :
  fst (execute sagaABC (Some cmdsABC) None world0) =
  (Resolved (setUpdatedAt 1002 (setStatus Completed txABC)),
   Some (setUpdatedAt 1002 (setStatus Completed txABC))) /\
  calls (snd (execute sagaABC (Some cmdsABC) None world0)) =
  [CallProcess 0 (literal "a") txABC; CallProcess 1 (literal "b") txABC;
   CallProcess 2 (literal "c") txABC] /\
  ext (snd (execute sagaABC (Some cmdsABC) None world0)) =
  ["apply a"; "apply b"; "apply c"].
Proof. repeat split. Qed.

(** ** Where the specification and the code part ways *)

(** C1: execute is documented to throw the original error after the
    automatic rollback, and its catch block ends in [throw error]. With the
    apply step of [a] rejecting and its compensation rejecting too, commit
    rejects with "a failed", the original error, but execute rejects with
    "undo failed", the error of the rollback: the rollback is awaited
    unguarded, so its rejection leaves the catch block before the rethrow. *)
Lemma execute_rollback_error_masks_commit_error :
  initTransaction sagaFailingTwice (Some [literal "a"]) None world0 =
    (Resolved (setCommands [literal "a"] txABC), worldABC) /\
  fst (fst (commitTransaction sagaFailingTwice
              (setCommands [literal "a"] txABC) worldABC)) =
    Rejected (Error "a failed") /\
  fst (fst (execute sagaFailingTwice (Some [literal "a"]) None world0)) =
    Rejected (Error "undo failed") /\
  Error "undo failed" <> Error "a failed".
Proof. repeat split. discriminate. Qed.

(** C2 as stated fails: with the apply step of [b] rejecting in
    the list a, b, c (k = 2, n = 3), the compensate step is invoked for c
    as well, which was never attempted. *)
Lemma execute_compensates_unattempted_command :
  fst (fst (execute sagaFailingB (Some cmdsABC) None world0)) =
    Rejected (Error "b failed") /\
  calls (snd (execute sagaFailingB (Some cmdsABC) None world0)) =
    [CallProcess 0 (literal "a") txABC; CallProcess 1 (literal "b") txABC;
     CallRollBack 2 (literal "c") txABC; CallRollBack 1 (literal "b") txABC;
     CallRollBack 0 (literal "a") txABC] /\
  In (CallRollBack 2 (literal "c") txABC)
     (calls (snd (execute sagaFailingB (Some cmdsABC) None world0))).
Proof. repeat split. simpl. auto. Qed.

(** C3 as stated fails: for the command [{ type: "unknown" }]
    and no registered processor, the message of the error is
    "No processor found for command: Object"; "unknown" does not occur in
    it. *)
Lemma no_processor_message_omits_type :
  fst (fst (execute sagaEmpty (Some [literal "unknown"]) None world0)) =
    Rejected {| errName := "NoProcessorFoundError";
                errMessage := "No processor found for command: Object" |} /\
  index 0 "unknown" "No processor found for command: Object" = None.
Proof. split; reflexivity. Qed.


(** C5 as stated fails: the message of the error is
    "Commands can't be null or empty", not "commands must not be null or empty". *)
Lemma initTransaction_empty_message :
  initTransaction sagaStored (Some []) None world0 =
    (Rejected (Error "Commands can't be null or empty"), world0) /\
  initTransaction sagaStored None None world0 =
    (Rejected (Error "Commands can't be null or empty"), world0) /\
  errMessage (Error "Commands can't be null or empty") <>
    "commands must not be null or empty".
Proof. repeat split. discriminate. Qed.

(** C6 as stated fails: an identifier is given in the options,
    the empty string, and the transaction returned has a generated id
    instead; and when the storage port's create rejects, no transaction is
    returned at all. *)
Lemma initTransaction_ignores_empty_id :
  fst (initTransaction sagaABC (Some cmdsABC) (withId "") world0) =
    Resolved txABC /\
  id txABC <> "" /\
  fst (initTransaction sagaStorageDown (Some cmdsABC) (withId "tx-1") world0) =
    Rejected (Error "storage unavailable").
Proof. repeat split. discriminate. Qed.

(** C7 as stated fails: on the empty list, where every command
    is matched and every apply step resolves, execute rejects; and so it
    does when every apply step resolves but the storage port's update
    rejects: the commands are compensated and the transaction is left
    RolledBack. *)
Lemma execute_does_not_complete :
  execute sagaABC (Some []) None world0 =
    (Rejected (Error "Commands can't be null or empty"), None, world0) /\
  fst (fst (execute sagaStorageFails (Some cmdsABC) None world0)) =
    Rejected (Error "storage unavailable") /\
  option_map status
    (snd (fst (execute sagaStorageFails (Some cmdsABC) None world0))) =
    Some RolledBack /\
  ext (snd (execute sagaStorageFails (Some cmdsABC) None world0)) =
    ["stored"; "apply a"; "apply b"; "apply c"; "undo c"; "undo b"; "undo a"].
Proof. repeat split. Qed.

(** C9 as stated fails: with a storage port configured, a call
    of initTransaction on the empty list makes no create call. *)
Lemma initTransaction_empty_no_create :
  repository sagaStored = Some workingRepository /\
  calls (snd (initTransaction sagaStored (Some []) None world0)) = [].
Proof. split; reflexivity. Qed.

(** ** The theorems at concrete sagas *)

(** The apply step of [b] rejects and the rollback resolves: execute
    rejects with the error of the apply step. *)
Lemma execute_after_commit_failure_witness :
  initTransaction sagaFailingB (Some cmdsABC) None world0 =
    (Resolved txABC, worldABC) /\
  commitTransaction sagaFailingB txABC worldABC =
    (Rejected (Error "b failed"), txABC,
     afterCalls worldABC ["apply a"]
       [CallProcess 0 (literal "a") txABC; CallProcess 1 (literal "b") txABC]) /\
  exists o t2 w3,
    rollBackTransaction sagaFailingB txABC
      (afterCalls worldABC ["apply a"]
         [CallProcess 0 (literal "a") txABC; CallProcess 1 (literal "b") txABC])
      = (o, t2, w3) /\
    execute sagaFailingB (Some cmdsABC) None world0 =
    (match o with
     | Resolved _ => Rejected (Error "b failed")
     | Rejected e' => Rejected e'
     end, Some t2, w3).
Proof.
  split; [reflexivity|]. split; [reflexivity|].
  apply (@execute_after_commit_failure Journal unit sagaFailingB (Some cmdsABC)
           None world0 txABC worldABC (Error "b failed") txABC);
    reflexivity.
Defined.

(** C2: the list a, b, c with the apply step of [b] rejecting. *)
Lemma execute_compensates_every_command_witness :
  execute sagaFailingB (Some ([literal "a"] ++ literal "b" :: [literal "c"]))
    None world0 =
  (Rejected (Error "b failed"),
   Some (setUpdatedAt 1002 (setStatus RolledBack txABC)),
   mkWorld ["apply a"; "undo c"; "undo b"; "undo a"] (dates world0) 3
     (uuids world0) 1
     [CallProcess 0 (literal "a") txABC; CallProcess 1 (literal "b") txABC;
      CallRollBack 2 (literal "c") txABC; CallRollBack 1 (literal "b") txABC;
      CallRollBack 0 (literal "a") txABC]).
Proof.
  refine (proj1 (@execute_compensates_every_command Journal unit sagaFailingB
    [literal "a"] (literal "b") [literal "c"] None world0 txABC worldABC
    ["apply a"] (handler "b" (fails "b failed") (notes "undo"))
    (Error "b failed") ["apply a"] _ _ _ _ _ _ _)).
  - reflexivity.
  - eapply stepsRun_cons; [reflexivity | reflexivity | apply stepsRun_nil].
  - reflexivity.
  - reflexivity.
  - reflexivity.
Defined.

(** C3: the command [{ type: "unknown" }] and no registered processor. *)
Lemma no_processor_found_witness :
  (forall p, In p (processors sagaEmpty) ->
     canProcess p (literal "unknown") = false) /\
  execute sagaEmpty (Some [literal "unknown"]) None world0 =
  (Rejected (NoProcessorFoundError (literal "unknown")),
   Some (setCommands [literal "unknown"] txABC), worldABC).
Proof.
  assert (H : forall p, In p (processors sagaEmpty) ->
     canProcess p (literal "unknown") = false) by (intros p []).
  split; [exact H|].
  apply (@no_processor_found Journal unit sagaEmpty (literal "unknown") H).
  reflexivity.
Defined.


(** C5: the empty list, with a storage port configured. *)
Lemma initTransaction_rejects_empty_witness :
  (Some (@nil Command) = None \/ Some (@nil Command) = Some []) /\
  initTransaction sagaStored (Some []) (withId "tx-1") world0 =
  (Rejected (Error "Commands can't be null or empty"), world0).
Proof.
  split; [now right|].
  apply (@initTransaction_rejects_empty Journal unit). now right.
Defined.

(** C6: a supplied identifier, with a storage port whose create resolves. *)
Lemma initTransaction_returns_pending_witness :
  cmdsABC <> [] /\
  exists t w',
    initTransaction sagaStored (Some cmdsABC) (withId "tx-1") world0 =
      (Resolved t, w') /\
    commands t = cmdsABC /\
    status t = Pending /\
    (forall s, optionsId (withId "tx-1") = Some s -> s <> "" -> id t = s) /\
    (optionsId (withId "tx-1") = None \/ optionsId (withId "tx-1") = Some "" ->
     id t = fst (randomUUID world0)).
Proof.
  split; [discriminate|].
  apply (@initTransaction_returns_pending Journal unit sagaStored cmdsABC
           (withId "tx-1") world0).
  - discriminate.
  - intros r Hr. injection Hr as <-. reflexivity.
Defined.

(** C7: a, b, c all resolve, with the transactions stored in memory. *)
Lemma execute_completes_witness :
  cmdsABC <> [] /\
  exists t' w',
    execute sagaInMemoryABC (Some cmdsABC) None worldInMemory
      = (Resolved t', Some t', w') /\
    status t' = Completed /\
    commands t' = cmdsABC /\
    id t' = id (fst (newTransaction cmdsABC None worldInMemory)) /\
    calls w' =
      calls worldInMemory
        ++ ifStored sagaInMemoryABC
             [CallCreate (fst (newTransaction cmdsABC None worldInMemory))]
        ++ callsOf sagaInMemoryABC Commit
             (fst (newTransaction cmdsABC None worldInMemory)) cmdsABC
        ++ ifStored sagaInMemoryABC [updateCall t'] /\
    Forall2 (dispatchedBy sagaInMemoryABC Commit
               (fst (newTransaction cmdsABC None worldInMemory)))
      cmdsABC
      (callsOf sagaInMemoryABC Commit
         (fst (newTransaction cmdsABC None worldInMemory)) cmdsABC).
Proof.
  split; [discriminate|].
  eapply (@execute_completes (@MemoryOutside unit Journal) unit sagaInMemoryABC
            cmdsABC None worldInMemory).
  - discriminate.
  - intros r Hr. injection Hr as <-. reflexivity.
  - eapply stepsRun_cons; [reflexivity | reflexivity |].
    eapply stepsRun_cons; [reflexivity | reflexivity |].
    eapply stepsRun_cons; [reflexivity | reflexivity | apply stepsRun_nil].
  - intros r Hr. injection Hr as <-. reflexivity.
Defined.

(** C8: two processors that both claim every command. *)
Lemma dispatch_first_match_witness :
  (stepsRun sagaOverlap RollBack txABC (passOrder RollBack txABC)
     (ext worldABC) ["first undo c"; "first undo b"; "first undo a"] /\
   calls (afterCalls worldABC ["first undo c"; "first undo b"; "first undo a"]
            [CallRollBack 0 (literal "c") txABC;
             CallRollBack 0 (literal "b") txABC;
             CallRollBack 0 (literal "a") txABC])
     = calls worldABC ++ callsOf sagaOverlap RollBack txABC (passOrder RollBack txABC) /\
   Forall2 (dispatchedBy sagaOverlap RollBack txABC) (passOrder RollBack txABC)
     (callsOf sagaOverlap RollBack txABC (passOrder RollBack txABC))) /\
  exists evs,
    calls (snd (processTransaction sagaOverlap txABC RollBack worldABC)) =
      calls worldABC ++ evs /\
    ~ In (CallProcess 1 (literal "a") txABC) evs /\
    ~ In (CallRollBack 1 (literal "a") txABC) evs.
Proof.
  destruct (@dispatch_first_match Journal unit sagaOverlap txABC RollBack worldABC)
    as (_ & _ & Hresolved & evs & Hcalls & _ & Hlater).
  split.
  - apply (Hresolved tt
             (afterCalls worldABC ["first undo c"; "first undo b"; "first undo a"]
                [CallRollBack 0 (literal "c") txABC;
                 CallRollBack 0 (literal "b") txABC;
                 CallRollBack 0 (literal "a") txABC])).
    reflexivity.
  - exists evs. split; [exact Hcalls|].
    eapply (Hlater 0 1);
      [repeat constructor | reflexivity | reflexivity | reflexivity | reflexivity].
Defined.

(** C9: the working storage port. *)
Lemma storage_calls_witness :
  repository sagaStored = Some workingRepository /\
  calls (snd (initTransaction sagaStored (Some cmdsABC) None world0)) =
    calls world0 ++ [CallCreate (fst (newTransaction cmdsABC None world0))].
Proof.
  split; [reflexivity|].
  refine (proj1 (proj1 (@storage_calls Journal unit sagaStored workingRepository
                          eq_refl) cmdsABC None world0 _)).
  discriminate.
Defined.

(** C10: the empty string supplied as identifier. *)
Lemma initTransaction_id_not_empty_witness :
  cmdsABC <> [] /\
  exists t,
    ((exists w', initTransaction sagaABC (Some cmdsABC) (withId "") world0
                 = (Resolved t, w')) \/
     (exists r e w', repository sagaABC = Some r /\
        fst (create r t (ext world0)) = Rejected e /\
        initTransaction sagaABC (Some cmdsABC) (withId "") world0
        = (Rejected e, w'))) /\
    id t <> "" /\
    (optionsId (withId "") = None \/ optionsId (withId "") = Some "" ->
     id t = fst (randomUUID world0)) /\
    forall t', id t' = id t ->
    forall action w1,
      processTransaction sagaABC t' action w1 =
      forEachCommand sagaABC action t'
        (match action with RollBack => rev (commands t') | Commit => commands t' end)
        w1.
Proof.
  split; [discriminate|].
  apply (@initTransaction_id_not_empty Journal unit sagaABC cmdsABC (withId "")
           world0).
  discriminate.
Defined.

(** ** Further properties of the orchestrator *)

Section OrchestratorProperties.

Context {Ext TMetadata : Type}.

Local Abbreviation World := (@World Ext TMetadata).
Local Abbreviation Saga := (@Saga Ext TMetadata).
Local Abbreviation Transaction := (@Transaction TMetadata).
Local Abbreviation TransactionOptions := (@TransactionOptions TMetadata).
Local Abbreviation Event := (@Event TMetadata).

Implicit Types (saga : Saga) (w : World) (t : Transaction)
  (action : TransactionProcessAction) (command : Command)
  (cmds : list Command) (evs : list Event).

Lemma settle_frame saga action t w :
  let t' := snd (fst (settle saga action t w)) in
  id t' = id t /\ commands t' = commands t /\
  metadata t' = metadata t /\ createdAt t' = createdAt t.
Proof.
  rewrite settle_run.
  destruct (processTransaction saga t action w) as [[u|e] w1]; cbn zeta.
  - destruct (repository saga); simpl; auto.
  - simpl; auto.
Qed.

Lemma stepsRun_matched saga action t cmds x x' :
  stepsRun saga action t cmds x x' ->
  forall command, In command cmds ->
  exists p, find (fun q => canProcess q command) (processors saga) = Some p.
Proof.
  induction 1 as [x|c rest p x x1 x2 Hf Hs Hrun IH]; intros command Hin.
  - destruct Hin.
  - destruct Hin as [<-|Hin]; [now exists p | now apply IH].
Qed.

(** X1: commit and rollback on a transaction whose id is empty reject with
    "Only initialized transactions can be processed" before anything else:
    the transaction and the world are as they were, no command is
    dispatched, no date read, no storage call made. *)
Theorem uninitialized_transaction_rejected saga t w :
  id t = "" ->
  commitTransaction saga t w =
    (Rejected (Error "Only initialized transactions can be processed"), t, w) /\
  rollBackTransaction saga t w =
    (Rejected (Error "Only initialized transactions can be processed"), t, w).
Proof.
  intros Hid. unfold commitTransaction, rollBackTransaction, processTransaction.
  rewrite Hid. split; reflexivity.
Qed.

(** X2: whatever its outcome, once initTransaction has made the transaction,
    execute leaves it with the id and the creation date initTransaction
    gave it, the input commands in their order and the metadata of the
    options: commit and rollback only ever write status and updatedAt. *)
Theorem execute_keeps_identity saga (input : option (list Command))
    (options : option TransactionOptions) w o t' w' :
  execute saga input options w = (o, Some t', w') ->
  exists cmds,
    input = Some cmds /\
    id t' = id (fst (newTransaction cmds options w)) /\
    createdAt t' = createdAt (fst (newTransaction cmds options w)) /\
    commands t' = cmds /\
    metadata t' = optionsMetadata options.
Proof.
  unfold execute.
  destruct (initTransaction saga input options w) as [[t|e] w1] eqn:Hinit;
    [|discriminate].
  destruct (initTransaction_resolved _ _ _ _ Hinit)
    as (cmds & Hin & _ & Ht & _ & Hcmds & _).
  assert (Hmeta : metadata t = optionsMetadata options)
    by (rewrite Ht, newTransaction_run; reflexivity).
  pose proof (settle_frame saga Commit t w1) as Hc.
  change (settle saga Commit t w1) with (commitTransaction saga t w1) in Hc.
  destruct (commitTransaction saga t w1) as [[[u|e] t1] w2]; simpl in Hc;
    destruct Hc as (Hi1 & Hc1 & Hm1 & Hd1).
  - intros H. injection H as <- <- <-. exists cmds. rewrite <- Ht.
    repeat split; congruence.
  - pose proof (settle_frame saga RollBack t1 w2) as Hr.
    change (settle saga RollBack t1 w2) with (rollBackTransaction saga t1 w2) in Hr.
    destruct (rollBackTransaction saga t1 w2) as [[[u|e'] t2] w3]; simpl in Hr;
      destruct Hr as (Hi2 & Hc2 & Hm2 & Hd2);
      intros H; injection H as <- <- <-; exists cmds; rewrite <- Ht;
      repeat split; congruence.
Qed.

(** X3: commit and rollback write the new status and date into the
    transaction before they tell the storage port. When the processing pass
    resolved and the port's findByIdAndUpdate rejects, the call rejects with
    the port's error, yet the transaction it leaves already has the final
    status (Completed or RolledBack) and the refreshed updatedAt. *)
Theorem settle_mutates_before_persisting saga r action t w w1 e :
  repository saga = Some r ->
  processTransaction saga t action w = (Resolved tt, w1) ->
  fst (findByIdAndUpdate r (id t)
         {| updStatus := Some (finalStatus action);
            updUpdatedAt := Some (fst (newDate w1)) |} (ext w1)) = Rejected e ->
  exists t' w',
    settle saga action t w = (Rejected e, t', w') /\
    status t' = finalStatus action /\
    updatedAt t' = fst (newDate w1) /\
    status t' <> Pending.
Proof.
  intros Hr Hp He. rewrite settle_run, Hp. cbn zeta. rewrite Hr.
  simpl updatedAt. simpl in He. rewrite He.
  eexists. eexists. split; [reflexivity|]. simpl.
  repeat split. destruct action; discriminate.
Qed.

(** X4: when some command of the list has no registered processor, execute
    never completes and never rolls back. The commit pass rejects, and so
    does the rollback pass, which meets the same command: execute rejects,
    the transaction is left exactly as initTransaction made it, Pending,
    and after initialization no call reaches the storage port. *)
Theorem unroutable_command_leaves_pending saga cmds
    (options : option TransactionOptions) w t w1 command :
  initTransaction saga (Some cmds) options w = (Resolved t, w1) ->
  In command cmds ->
  (forall p, In p (processors saga) -> canProcess p command = false) ->
  exists e w' evs,
    execute saga (Some cmds) options w = (Rejected e, Some t, w') /\
    status t = Pending /\
    calls w' = calls w1 ++ evs /\
    Forall (fun ev => isStorageCall ev = false) evs.
Proof.
  intros Hinit Hin Hnone.
  destruct (initTransaction_resolved _ _ _ _ Hinit)
    as (cmds' & Heq & _ & _ & Hid & Hcmds & Hst & _).
  injection Heq as <-.
  assert (Hf : find (fun q => canProcess q command) (processors saga) = None)
    by (now apply find_none_all).
  assert (Hrej : forall action w0,
    exists e x evs,
      settle saga action t w0 = (Rejected e, t, afterCalls w0 x evs) /\
      Forall (fun ev => isStorageCall ev = false) evs).
  { intros action w0. rewrite settle_run.
    destruct (processTransaction saga t action w0) as [[u|e] w2] eqn:Hp.
    - apply processTransaction_resolved in Hp. destruct Hp as (_ & Hrun & _).
      assert (Hin' : In command (passOrder action t)).
      { unfold passOrder. rewrite Hcmds.
        destruct action; [assumption | now apply -> in_rev]. }
      destruct (stepsRun_matched Hrun command Hin') as (p & Hp). congruence.
    - apply processTransaction_calls in Hp. destruct Hp as (x & evs & -> & Hall).
      exists e, x, evs. split; [reflexivity|].
      eapply Forall_impl; [|exact Hall].
      intros ev Hev. now apply dispatchedToFirst_core in Hev. }
  destruct (Hrej Commit w1) as (e1 & x1 & evs1 & Hc & Hs1).
  destruct (Hrej RollBack (afterCalls w1 x1 evs1)) as (e2 & x2 & evs2 & Hr & Hs2).
  exists e2, (afterCalls (afterCalls w1 x1 evs1) x2 evs2), (evs1 ++ evs2).
  split; [|split; [assumption|split]].
  - unfold execute. rewrite Hinit.
    change (commitTransaction saga t w1) with (settle saga Commit t w1).
    rewrite Hc.
    change (rollBackTransaction saga t (afterCalls w1 x1 evs1))
      with (settle saga RollBack t (afterCalls w1 x1 evs1)).
    now rewrite Hr.
  - simpl. now rewrite app_assoc.
  - now apply Forall_app.
Qed.

Lemma callTarget_callOf saga action t command :
  map callTarget (callOf saga action t command) =
  match findIndex (fun q => canProcess q command) (processors saga) with
  | Some i => [Some (i, command)]
  | None => []
  end.
Proof.
  unfold callOf. destruct (findIndex _ (processors saga)); [|reflexivity].
  now destruct action.
Qed.

Lemma callTarget_callsOf_rev saga t1 t2 cmds :
  map callTarget (callsOf saga RollBack t2 (rev cmds)) =
  rev (map callTarget (callsOf saga Commit t1 cmds)).
Proof.
  induction cmds as [|c rest IH]; [reflexivity|].
  simpl rev. rewrite callsOf_snoc, map_app, IH.
  unfold callsOf at 2. simpl flat_map. fold (callsOf saga Commit t1 rest).
  rewrite map_app, rev_app_distr, !callTarget_callOf.
  now destruct (findIndex _ (processors saga)).
Qed.

(** X5: a rollback that resolves undoes a commit that resolved step for
    step: its calls on processors are, in reverse order, on the same
    commands and the same processors that the commit called, the routing
    being done afresh but by the same rule. *)
Theorem rollback_mirrors_commit saga t w t1 w1 t2 w2 w3 :
  commitTransaction saga t w = (Resolved tt, t1, w1) ->
  rollBackTransaction saga t1 w2 = (Resolved tt, t2, w3) ->
  exists applied undone,
    calls w1 = calls w ++ applied ++ ifStored saga [updateCall t1] /\
    calls w3 = calls w2 ++ undone ++ ifStored saga [updateCall t2] /\
    Forall (fun ev => isProcessCall ev = true) applied /\
    Forall (fun ev => isRollBackCall ev = true) undone /\
    length applied = length (commands t) /\
    map callTarget undone = rev (map callTarget applied).
Proof.
  intros Hc Hr.
  change (commitTransaction saga t w) with (settle saga Commit t w) in Hc.
  change (rollBackTransaction saga t1 w2) with (settle saga RollBack t1 w2) in Hr.
  pose proof (settle_frame saga Commit t w) as Hf. rewrite Hc in Hf.
  simpl in Hf. destruct Hf as (_ & Hcmds & _).
  apply settle_resolved in Hc. destruct Hc as (_ & _ & (x & Hrun1) & Hcalls1).
  apply settle_resolved in Hr. destruct Hr as (_ & _ & (x' & Hrun2) & Hcalls2).
  unfold passOrder in *. rewrite Hcmds in *.
  exists (callsOf saga Commit t (commands t)),
         (callsOf saga RollBack t1 (rev (commands t))).
  pose proof (stepsRun_dispatched Hrun1) as Hd1.
  pose proof (stepsRun_dispatched Hrun2) as Hd2.
  repeat split; try assumption.
  - clear - Hd1. induction Hd1 as [|c ev cs evs (i & _ & ->) _ IH]; constructor; auto.
  - clear - Hd2. induction Hd2 as [|c ev cs evs (i & _ & ->) _ IH]; constructor; auto.
  - symmetry. exact (Forall2_length Hd1).
  - apply callTarget_callsOf_rev.
Qed.

(** X6: commit (and likewise rollback) resolves exactly when the id of the
    transaction is not empty, every command, taken in the order of the pass,
    is claimed by a processor whose step resolves, and the storage port, if
    there is one, accepts the update. The status the transaction has plays
    no part: a completed transaction is committed again like a pending one. *)
Theorem settle_resolves_iff saga action t w :
  (exists t' w', settle saga action t w = (Resolved tt, t', w')) <->
  id t <> "" /\
  exists x,
    stepsRun saga action t (passOrder action t) (ext w) x /\
    forall r, repository saga = Some r ->
      fst (findByIdAndUpdate r (id t)
             {| updStatus := Some (finalStatus action);
                updUpdatedAt := Some (fst (newDate w)) |} x) = Resolved tt.
Proof.
  split.
  - intros (t' & w' & H). rewrite settle_run in H.
    destruct (processTransaction saga t action w) as [[[]|e] w1] eqn:Hp;
      [|discriminate].
    apply processTransaction_resolved in Hp. destruct Hp as (Hid & Hrun & Hw1).
    split; [assumption|]. exists (ext w1). split; [assumption|].
    intros r Hr. cbn zeta in H. rewrite Hr in H.
    assert (Hd : dates w1 (dateReads w1) = fst (newDate w)) by (now rewrite Hw1).
    simpl updatedAt in H. rewrite Hd in H. now inversion H.
  - intros (Hid & x & Hrun & Hupd). rewrite settle_run.
    rewrite processTransaction_passOrder by assumption.
    rewrite (stepsRun_forEach Hrun w eq_refl). cbn zeta.
    destruct (repository saga) as [r|] eqn:Hr.
    + simpl. specialize (Hupd r eq_refl). simpl in Hupd. rewrite Hupd.
      eexists. eexists. reflexivity.
    + eexists. eexists. reflexivity.
Qed.

(** X7: initialization is all or nothing. When the storage port's create
    rejects, initTransaction rejects with the port's error and returns no
    transaction, and so does execute, which then runs neither commit nor
    rollback: create is the only call made. *)
Theorem create_failure_stops_execute saga r cmds
    (options : option TransactionOptions) w e :
  cmds <> [] ->
  repository saga = Some r ->
  fst (create r (fst (newTransaction cmds options w)) (ext w)) = Rejected e ->
  exists w',
    initTransaction saga (Some cmds) options w = (Rejected e, w') /\
    execute saga (Some cmds) options w = (Rejected e, None, w') /\
    calls w' = calls w ++ [CallCreate (fst (newTransaction cmds options w))].
Proof.
  intros Hne Hr He.
  assert (Hinit : exists w',
    initTransaction saga (Some cmds) options w = (Rejected e, w') /\
    calls w' = calls w ++ [CallCreate (fst (newTransaction cmds options w))]).
  { rewrite initTransaction_run by assumption. cbn zeta. rewrite Hr, He.
    eexists. split; [reflexivity|]. simpl. now rewrite newTransaction_run. }
  destruct Hinit as (w' & Hinit & Hcalls). exists w'.
  repeat split; try assumption. unfold execute. now rewrite Hinit.
Qed.

Lemma forEach_preserves saga (P : Ext -> Prop) action t cmds :
  stepsPreserve saga P ->
  forall w, P (ext w) -> P (ext (snd (forEachCommand saga action t cmds w))).
Proof.
  intros HP. induction cmds as [|c rest IH]; intros w Hw; [exact Hw|].
  destruct (find (fun q => canProcess q c) (processors saga)) as [p|] eqn:Hf.
  - destruct (forEach_cons_matched saga action t c rest w Hf) as (i & _ & _ & ->).
    unfold bind. rewrite dispatch_run.
    pose proof (HP p action c t (ext w) (proj1 (find_some _ _ Hf)) Hw) as Hstep.
    destruct (step action p c t (ext w)) as [[u|e] x1]; simpl in *.
    + apply IH. exact Hstep.
    + exact Hstep.
  - rewrite forEach_cons_unmatched by assumption. exact Hw.
Qed.

Lemma settle_preserves saga (P : Ext -> Prop) action t w :
  stepsPreserve saga P -> storagePreserves saga P ->
  P (ext w) -> P (ext (snd (settle saga action t w))).
Proof.
  intros HP HS Hw. rewrite settle_run.
  assert (Hp : P (ext (snd (processTransaction saga t action w)))).
  { unfold processTransaction. destruct (id t =? "")%string; [exact Hw|].
    now apply forEach_preserves. }
  destruct (processTransaction saga t action w) as [[u|e] w1]; simpl in Hp;
    [|exact Hp].
  cbn zeta. destruct (repository saga) as [r|] eqn:Hr; [|exact Hp].
  simpl. now apply (HS r Hr).
Qed.

(** X8: the orchestrator acts on the outside world through handler steps
    and storage calls only. Whatever property of the outside every step of
    every registered processor keeps, and every create and update of the
    storage port keeps, still holds after initTransaction, commit, rollback
    and execute, whether they resolve or reject. *)
Theorem outside_invariant_kept saga (P : Ext -> Prop)
    (input : option (list Command)) (options : option TransactionOptions)
    action t w :
  stepsPreserve saga P ->
  storagePreserves saga P ->
  P (ext w) ->
  P (ext (snd (initTransaction saga input options w))) /\
  P (ext (snd (settle saga action t w))) /\
  P (ext (snd (execute saga input options w))).
Proof.
  intros HP HS Hw.
  assert (Hinit : P (ext (snd (initTransaction saga input options w)))).
  { destruct input as [[|c rest]|]; try exact Hw.
    rewrite initTransaction_run by discriminate. cbn zeta.
    destruct (repository saga) as [r|] eqn:Hr.
    - simpl. now apply (HS r Hr).
    - rewrite newTransaction_run. exact Hw. }
  split; [exact Hinit|]. split; [now apply settle_preserves|].
  unfold execute.
  destruct (initTransaction saga input options w) as [[t0|e] w1];
    simpl in Hinit; [|exact Hinit].
  pose proof (@settle_preserves saga P Commit t0 w1 HP HS Hinit) as Hc.
  change (settle saga Commit t0 w1) with (commitTransaction saga t0 w1) in Hc.
  destruct (commitTransaction saga t0 w1) as [[[u|e] t1] w2]; simpl in Hc;
    [exact Hc|].
  pose proof (@settle_preserves saga P RollBack t1 w2 HP HS Hc) as Hr.
  change (settle saga RollBack t1 w2) with (rollBackTransaction saga t1 w2) in Hr.
  destruct (rollBackTransaction saga t1 w2) as [[[u|e'] t2] w3]; exact Hr.
Qed.

End OrchestratorProperties.

(** ** Properties of the in-memory repository *)

Section MemoryRepositoryProperties.

Context {TMetadata : Type}.

Local Abbreviation Transaction := (@Transaction TMetadata).
Local Abbreviation TransactionMap := (@TransactionMap TMetadata).
Local Abbreviation PartialTransaction := (@PartialTransaction TMetadata).

Implicit Types (m : TransactionMap) (t v : Transaction) (k i : string)
  (updates : PartialTransaction).

Lemma mapGet_mapSet_same k v m : mapGet k (mapSet k v m) = Some v.
Proof.
  induction m as [|[k' v'] rest IH]; simpl.
  - now rewrite String.eqb_refl.
  - destruct (k' =? k)%string eqn:E; simpl.
    + now rewrite String.eqb_refl.
    + now rewrite E.
Qed.

Lemma mapGet_mapSet_other k k' v m :
  k' <> k -> mapGet k' (mapSet k v m) = mapGet k' m.
Proof.
  intros Hne. induction m as [|[k0 v0] rest IH]; simpl.
  - destruct (String.eqb_spec k k'); [congruence | reflexivity].
  - destruct (String.eqb_spec k0 k) as [->|Hk]; simpl.
    + destruct (String.eqb_spec k k'); [congruence | reflexivity].
    + now rewrite IH.
Qed.

Lemma mapGet_none_keys k m : mapGet k m = None <-> ~ In k (map fst m).
Proof.
  induction m as [|[k' v'] rest IH]; simpl; [tauto|].
  destruct (String.eqb_spec k' k) as [->|Hk].
  - split; [discriminate | intros H; exfalso; apply H; now left].
  - rewrite IH. split; [intros H [?|?]; [congruence | tauto] | tauto].
Qed.

Lemma mapSet_keys k v m :
  map fst (mapSet k v m) =
  match mapGet k m with
  | Some _ => map fst m
  | None => map fst m ++ [k]
  end.
Proof.
  induction m as [|[k' v'] rest IH]; simpl; [reflexivity|].
  destruct (String.eqb_spec k' k) as [->|Hk]; simpl; [reflexivity|].
  rewrite IH. now destruct (mapGet k rest).
Qed.

Lemma mapSet_unique k v m : NoDup (map fst m) -> NoDup (map fst (mapSet k v m)).
Proof.
  intros H. rewrite mapSet_keys. destruct (mapGet k m) eqn:E; [assumption|].
  apply mapGet_none_keys in E.
  apply NoDup_app; [assumption | repeat constructor; intros [] |].
  intros a Ha [<-|[]]. contradiction.
Qed.

Lemma mapDelete_keys_incl k m a :
  In a (map fst (mapDelete k m)) -> In a (map fst m).
Proof.
  induction m as [|[k' v'] rest IH]; simpl; [tauto|].
  destruct (k' =? k)%string; simpl; tauto.
Qed.

Lemma mapDelete_unique k m : NoDup (map fst m) -> NoDup (map fst (mapDelete k m)).
Proof.
  induction m as [|[k' v'] rest IH]; simpl; intros H; [constructor|].
  inversion H as [|? ? Hn Hr]; subst.
  destruct (k' =? k)%string; simpl; [assumption|].
  constructor; [|now apply IH].
  intros Hin. apply Hn. now apply mapDelete_keys_incl in Hin.
Qed.

Lemma mapGet_mapDelete_same k m :
  NoDup (map fst m) -> mapGet k (mapDelete k m) = None.
Proof.
  induction m as [|[k' v'] rest IH]; simpl; intros H; [reflexivity|].
  inversion H as [|? ? Hn Hr]; subst.
  destruct (String.eqb_spec k' k) as [->|Hk]; simpl.
  - now apply mapGet_none_keys.
  - destruct (String.eqb_spec k' k); [contradiction | now apply IH].
Qed.

Lemma mapGet_mapDelete_other k k' m :
  k' <> k -> mapGet k' (mapDelete k m) = mapGet k' m.
Proof.
  intros Hne. induction m as [|[k0 v0] rest IH]; simpl; [reflexivity|].
  destruct (String.eqb_spec k0 k) as [->|Hk]; simpl.
  - destruct (String.eqb_spec k k'); [congruence | reflexivity].
  - now rewrite IH.
Qed.

Lemma mapDelete_length k m :
  length (mapDelete k m) =
  match mapGet k m with
  | Some _ => pred (length m)
  | None => length m
  end.
Proof.
  induction m as [|[k' v'] rest IH]; simpl; [reflexivity|].
  destruct (k' =? k)%string; simpl; [reflexivity|].
  rewrite IH. destruct (mapGet k rest) eqn:E; [|reflexivity].
  destruct rest; [discriminate | reflexivity].
Qed.

Lemma mapGet_in k v m : NoDup (map fst m) -> In (k, v) m -> mapGet k m = Some v.
Proof.
  induction m as [|[k' v'] rest IH]; simpl; intros H Hin; [contradiction|].
  inversion H as [|? ? Hn Hr]; subst.
  destruct Hin as [Heq|Hin].
  - injection Heq as -> ->. now rewrite String.eqb_refl.
  - destruct (String.eqb_spec k' k) as [->|Hk]; [|now apply IH].
    exfalso. apply Hn. change k with (fst (k, v)). now apply in_map.
Qed.

Lemma mapGet_some_in k v m : mapGet k m = Some v -> In (k, v) m.
Proof.
  induction m as [|[k' v'] rest IH]; simpl; [discriminate|].
  destruct (String.eqb_spec k' k) as [->|Hk].
  - intros H. injection H as ->. now left.
  - intros H. right. now apply IH.
Qed.

(** The maps the methods make have one entry per key, as a Map has. *)
Lemma memApply_unique (op : @MemOperation TMetadata) m :
  NoDup (map fst m) -> NoDup (map fst (memApply op m)).
Proof.
  intros H. destruct op as [t|i updates now|i|]; simpl.
  - now apply mapSet_unique.
  - unfold memFindByIdAndUpdate. destruct (mapGet i m); simpl;
      [now apply mapSet_unique | assumption].
  - now apply mapDelete_unique.
  - constructor.
Qed.

Lemma memRun_unique (ops : list (@MemOperation TMetadata)) :
  NoDup (map fst (memRun ops)).
Proof.
  unfold memRun.
  assert (H : forall m, NoDup (map fst m) ->
            NoDup (map fst (fold_left (fun m op => memApply op m) ops m))).
  { induction ops as [|op rest IH]; intros m Hm; simpl; [assumption|].
    apply IH. now apply memApply_unique. }
  apply H. constructor.
Qed.

(** X9: create then findById gives the transaction back, and no other id
    is affected. create never rejects: when the id is already stored the
    old record is replaced where it stands and the size is unchanged;
    otherwise the record is added last and the size grows by one. *)
Theorem create_then_findById t m :
  memFindById (id t) (memCreate t m) = Some t /\
  (forall k, k <> id t -> memFindById k (memCreate t m) = memFindById k m) /\
  map fst (memCreate t m) =
    match memFindById (id t) m with
    | Some _ => map fst m
    | None => map fst m ++ [id t]
    end /\
  memSize (memCreate t m) =
    match memFindById (id t) m with
    | Some _ => memSize m
    | None => S (memSize m)
    end.
Proof.
  unfold memFindById, memCreate, memSize. repeat split.
  - apply mapGet_mapSet_same.
  - intros k Hk. now apply mapGet_mapSet_other.
  - apply mapSet_keys.
  - rewrite <- !(length_map fst), mapSet_keys.
    destruct (mapGet (id t) m); [reflexivity|].
    rewrite length_app. simpl. lia.
Qed.

(** X10: findByIdAndUpdate resolves exactly when the id is stored. If it is
    not, it rejects with "Transaction <id> not found" and the map is as it
    was. If it is, the stored record takes the fields the updates carry and
    keeps the others, except that its updatedAt is always the date the
    repository reads itself, whatever updatedAt the updates carry; the
    record stays under the same key, and nothing else changes. *)
Theorem findByIdAndUpdate_cases i updates now m :
  match memFindById i m with
  | None =>
      memFindByIdAndUpdate i updates now m =
      (Rejected (Error ("Transaction " ++ i ++ " not found")), m)
  | Some existing =>
      exists m',
        memFindByIdAndUpdate i updates now m = (Resolved tt, m') /\
        memFindById i m' = Some (applyUpdates existing updates now) /\
        updatedAt (applyUpdates existing updates now) = now /\
        (forall k, k <> i -> memFindById k m' = memFindById k m) /\
        map fst m' = map fst m
  end.
Proof.
  unfold memFindById, memFindByIdAndUpdate.
  destruct (mapGet i m) as [existing|] eqn:E; [|reflexivity].
  eexists. split; [reflexivity|]. repeat split.
  - apply mapGet_mapSet_same.
  - intros k Hk. now apply mapGet_mapSet_other.
  - rewrite mapSet_keys. now rewrite E.
Qed.

(** X11: on a map the methods made, deleteById never rejects; afterwards
    findById of that id is null and every other id is as before; the size
    drops by one when the id was stored and is unchanged when it was not. *)
Theorem deleteById_then_findById (ops : list (@MemOperation TMetadata)) i :
  memFindById i (memDeleteById i (memRun ops)) = None /\
  (forall k, k <> i ->
     memFindById k (memDeleteById i (memRun ops)) = memFindById k (memRun ops)) /\
  memSize (memDeleteById i (memRun ops)) =
    match memFindById i (memRun ops) with
    | Some _ => pred (memSize (memRun ops))
    | None => memSize (memRun ops)
    end.
Proof.
  unfold memFindById, memDeleteById, memSize. repeat split.
  - apply mapGet_mapDelete_same, memRun_unique.
  - intros k Hk. now apply mapGet_mapDelete_other.
  - apply mapDelete_length.
Qed.

Lemma filter_values_by_key (P : Transaction -> bool) m :
  NoDup (map fst m) ->
  length (filter P (mapValues m)) =
  length (filter (fun k => match mapGet k m with
                           | Some t => P t
                           | None => false
                           end) (map fst m)).
Proof.
  unfold mapValues. induction m as [|[k v] rest IH]; intros Hnd; [reflexivity|].
  inversion Hnd as [|? ? Hn Hr]; subst. simpl.
  rewrite String.eqb_refl.
  assert (Hext :
    filter (fun k0 => match (if (k =? k0)%string then Some v else mapGet k0 rest) with
                      | Some t => P t
                      | None => false
                      end) (map fst rest) =
    filter (fun k0 => match mapGet k0 rest with
                      | Some t => P t
                      | None => false
                      end) (map fst rest)).
  { apply filter_ext_in. intros k0 Hk0.
    destruct (String.eqb_spec k k0) as [->|_]; [contradiction | reflexivity]. }
  rewrite Hext. destruct (P v); simpl; now rewrite IH.
Qed.

(** X12: on a map the methods made, findByStatus returns exactly the
    stored records that have the status: a record is in the result if and
    only if findById returns it for some id and its status is the one asked
    for, and the result has one entry for each stored id whose record has
    that status. *)
Theorem findByStatus_exact (ops : list (@MemOperation TMetadata))
    (s : TransactionStatus) t :
  (In t (memFindByStatus s (memRun ops)) <->
   (exists k, memFindById k (memRun ops) = Some t) /\ status t = s) /\
  length (memFindByStatus s (memRun ops)) =
  length (filter (fun k => match memFindById k (memRun ops) with
                           | Some r => statusEqb (status r) s
                           | None => false
                           end) (map fst (memRun ops))).
Proof.
  split.
  - unfold memFindByStatus, memFindById, mapValues. rewrite filter_In, in_map_iff.
    split.
    + intros [([k v] & Hv & Hin) Hs]. simpl in Hv. subst v. split.
      * exists k. apply mapGet_in; [apply memRun_unique | assumption].
      * destruct (status t), s; simpl in Hs; congruence.
    + intros [(k & Hk) Hs]. split.
      * exists (k, t). split; [reflexivity | now apply mapGet_some_in].
      * subst s. now destruct (status t).
  - unfold memFindByStatus, memFindById.
    apply (filter_values_by_key (fun r => statusEqb (status r) s)).
    apply memRun_unique.
Qed.

Lemma mapSet_in k v m a b :
  In (a, b) (mapSet k v m) -> (a, b) = (k, v) \/ In (a, b) m.
Proof.
  induction m as [|[k' v'] rest IH]; simpl.
  - intros [H|[]]. now left.
  - destruct (k' =? k)%string; simpl; intros [H|H]; auto.
    destruct (IH H); auto.
Qed.

Lemma mapDelete_in k m a b : In (a, b) (mapDelete k m) -> In (a, b) m.
Proof.
  induction m as [|[k' v'] rest IH]; simpl; [tauto|].
  destruct (k' =? k)%string; simpl; tauto.
Qed.

(** X13: a record is stored under its own id for as long as no update sets
    the id field: on a map made by creates, deletes, clears and updates
    that carry no id, findById of an id returns a record with that id. *)
Theorem stored_under_own_id (ops : list (@MemOperation TMetadata)) k t :
  Forall (fun op => match op with
                    | MemUpdate _ updates _ => partId updates = None
                    | _ => True
                    end) ops ->
  memFindById k (memRun ops) = Some t ->
  id t = k.
Proof.
  unfold memRun, memFindById. intros Hops Hget.
  apply mapGet_some_in in Hget. revert k t Hget.
  assert (H : forall m,
    (forall k t, In (k, t) m -> id t = k) ->
    forall k t,
      In (k, t) (fold_left (fun m op => memApply op m) ops m) -> id t = k).
  { induction Hops as [|op rest Hop _ IH]; intros m Hm; simpl; [exact Hm|].
    apply IH. intros k0 t0.
    destruct op as [t1|i updates now|i|]; simpl.
    - unfold memCreate. intros Hin. apply mapSet_in in Hin.
      destruct Hin as [Heq|Hin]; [now injection Heq as -> -> | now apply Hm].
    - unfold memFindByIdAndUpdate.
      destruct (mapGet i m) as [existing|] eqn:E; simpl; [|apply Hm].
      intros Hin. apply mapSet_in in Hin.
      destruct Hin as [Heq|Hin]; [|now apply Hm].
      injection Heq as -> ->. simpl. rewrite Hop. simpl.
      apply Hm. now apply mapGet_some_in.
    - unfold memDeleteById. intros Hin. apply mapDelete_in in Hin. now apply Hm.
    - intros []. }
  apply H. intros k t [].
Qed.

End MemoryRepositoryProperties.

(** ** The in-memory repository behind a saga *)

Section StoredTransactions.

Context {H TMetadata : Type}.

Local Abbreviation Outside := (@MemoryOutside TMetadata H).
Local Abbreviation World := (@World Outside TMetadata).
Local Abbreviation Saga := (@Saga Outside TMetadata).
Local Abbreviation Transaction := (@Transaction TMetadata).

Implicit Types (saga : Saga) (w : World) (t r : Transaction)
  (action : TransactionProcessAction).

Lemma settle_keeps_stored_record saga action t w r :
  repository saga = Some InMemoryTransactionRepository ->
  (forall p a command t0 x, In p (processors saga) ->
     stored (snd (step a p command t0 x)) = stored x) ->
  memFindById (id t) (stored (ext w)) = Some r ->
  id r = id t /\ status r = status t /\ commands r = commands t /\
    metadata r = metadata t /\ createdAt r = createdAt t ->
  exists r',
    memFindById (id (snd (fst (settle saga action t w))))
      (stored (ext (snd (settle saga action t w)))) = Some r' /\
    id r' = id (snd (fst (settle saga action t w))) /\
    status r' = status (snd (fst (settle saga action t w))) /\
    commands r' = commands (snd (fst (settle saga action t w))) /\
    metadata r' = metadata (snd (fst (settle saga action t w))) /\
    createdAt r' = createdAt (snd (fst (settle saga action t w))).
Proof.
  intros Hrepo Hpres Hget (Hi & Hs & Hc & Hm & Hd).
  assert (Hkeep : stored (ext (snd (processTransaction saga t action w)))
                  = stored (ext w)).
  { unfold processTransaction. destruct (id t =? "")%string; [reflexivity|].
    apply (@forEach_preserves Outside TMetadata saga
             (fun x => stored x = stored (ext w))); [|reflexivity].
    intros p a command t0 x Hin Hx. now rewrite Hpres. }
  rewrite settle_run.
  destruct (processTransaction saga t action w) as [[u|e] w1]; simpl in Hkeep.
  - cbn zeta. rewrite Hrepo. unfold memFindById in *. simpl.
    unfold memFindByIdAndUpdate. rewrite Hkeep, Hget. simpl.
    rewrite mapGet_mapSet_same. eexists. split; [reflexivity|].
    simpl. repeat split; assumption.
  - simpl. rewrite Hkeep. exists r. repeat split; assumption.
Qed.

(** X14: write-through. For a saga that stores its transactions in an
    InMemoryTransactionRepository and whose handlers leave the repository's
    map alone, the record stored under the transaction's id follows the
    transaction: when execute ends, resolved or rejected, findById of that
    id returns a record with the same id, status, commands, metadata and
    creation date as the transaction execute leaves. On a null or empty
    list nothing is stored. *)
Theorem stored_record_follows_transaction saga
    (input : option (list Command)) options w :
  repository saga = Some InMemoryTransactionRepository ->
  (forall p a command t0 x, In p (processors saga) ->
     stored (snd (step a p command t0 x)) = stored x) ->
  match execute saga input options w with
  | (_, Some t', w') =>
      exists r,
        memFindById (id t') (stored (ext w')) = Some r /\
        id r = id t' /\ status r = status t' /\ commands r = commands t' /\
        metadata r = metadata t' /\ createdAt r = createdAt t'
  | (_, None, w') => stored (ext w') = stored (ext w)
  end.
Proof.
  intros Hrepo Hpres. unfold execute.
  destruct input as [[|c rest]|]; try reflexivity.
  rewrite initTransaction_run by discriminate. cbn zeta. rewrite Hrepo.
  simpl fst. cbv iota.
  set (t0 := fst (newTransaction (c :: rest) options w)).
  set (w1 := afterCalls _ _ _).
  assert (Hget : memFindById (id t0) (stored (ext w1)) = Some t0).
  { unfold w1, memFindById. simpl. apply mapGet_mapSet_same. }
  pose proof (@settle_keeps_stored_record saga Commit t0 w1 t0 Hrepo Hpres Hget
                (conj eq_refl (conj eq_refl (conj eq_refl (conj eq_refl eq_refl)))))
    as Hc.
  change (settle saga Commit t0 w1) with (commitTransaction saga t0 w1) in Hc.
  destruct (commitTransaction saga t0 w1) as [[[u|e] t1] w2]; simpl in Hc.
  - exact Hc.
  - destruct Hc as (r1 & Hget1 & Hagree).
    pose proof (@settle_keeps_stored_record saga RollBack t1 w2 r1 Hrepo Hpres
                  Hget1 Hagree) as Hr.
    change (settle saga RollBack t1 w2) with (rollBackTransaction saga t1 w2) in Hr.
    destruct (rollBackTransaction saga t1 w2) as [[[u|e'] t2] w3]; exact Hr.
Qed.

End StoredTransactions.

(** ** Properties of the builder and of the global configuration *)

Section BuilderProperties.

Context {Ext TMetadata : Type}.

Local Abbreviation Arrays := (@Builder.Arrays Ext TMetadata).
Local Abbreviation SagaBuilder := (@Builder.SagaBuilder Ext TMetadata).
Local Abbreviation SagaObject := (@Builder.SagaObject Ext TMetadata).
Local Abbreviation Registration := (@Builder.Registration Ext TMetadata).
Local Abbreviation SagaliciousConfig := (@SagaliciousConfig Ext TMetadata).
Local Abbreviation TransactionRepository := (@TransactionRepository Ext TMetadata).
Local Abbreviation HandlerConfig := (@HandlerConfig Ext TMetadata).

Implicit Types (h : Arrays) (b : SagaBuilder) (s : SagaObject)
  (reg : Registration) (regs : list Registration) (g : SagaliciousConfig).

Lemma register_run reg b h :
  Builder.register reg b h =
  (b, Builder.push (Builder.builderProcessors b) (Builder.registered reg) h).
Proof. destruct reg as [[ty config|config]|p]; reflexivity. Qed.

Lemma registerAll_run regs : forall b h,
  fst (Builder.registerAll regs b h) = b /\
  Builder.allocated (snd (Builder.registerAll regs b h)) = Builder.allocated h /\
  Builder.arrayAt (snd (Builder.registerAll regs b h)) (Builder.builderProcessors b)
    = Builder.arrayAt h (Builder.builderProcessors b)
      ++ map (@Builder.registered Ext TMetadata) regs /\
  forall r, r <> Builder.builderProcessors b ->
    Builder.arrayAt (snd (Builder.registerAll regs b h)) r = Builder.arrayAt h r.
Proof.
  induction regs as [|reg rest IH]; intros b h; simpl.
  - repeat split. now rewrite app_nil_r.
  - rewrite register_run.
    destruct (IH b (Builder.push (Builder.builderProcessors b)
                      (Builder.registered reg) h)) as (Hb & Ha & Hp & Ho).
    split; [exact Hb|]. split; [exact Ha|]. split.
    + rewrite Hp. simpl. rewrite Nat.eqb_refl. now rewrite <- app_assoc.
    + intros r Hr. rewrite (Ho r Hr). simpl.
      destruct (Nat.eqb_spec r (Builder.builderProcessors b)); [contradiction|].
      reflexivity.
Qed.

(** X15: a saga built from a new builder has exactly the processors that
    were registered, handlers wrapped in a HandlerAdapter, in the order of
    the registration calls, whether made through handler or processor. *)
Theorem build_keeps_registration_order h regs g :
  processors
    (Builder.sagaIn
       (snd (Builder.registerAll regs (fst (Builder.createSaga h))
               (snd (Builder.createSaga h))))
       (Builder.build g
          (fst (Builder.registerAll regs (fst (Builder.createSaga h))
                  (snd (Builder.createSaga h)))))) =
  map (@Builder.registered Ext TMetadata) regs.
Proof.
  destruct (registerAll_run regs (fst (Builder.createSaga h))
              (snd (Builder.createSaga h))) as (Hb & _ & Hp & _).
  rewrite Hb. unfold Builder.sagaIn, Builder.build. simpl. simpl in Hp.
  rewrite Hp. now rewrite Nat.eqb_refl.
Qed.

(** X16: the repository of a built saga is the one given to the builder by
    the last withRepository call, whatever the global configuration holds;
    without such a call it is the repository of the global configuration
    as last configured, and none after resetGlobalConfig. Registering
    processors changes nothing of this. *)
Theorem build_chooses_repository regs b h g
    (r1 r2 : TransactionRepository) (config : SagaliciousConfig) :
  let registeredOn b := fst (Builder.registerAll regs b h) in
  repository (Builder.sagaIn h
    (Builder.build g
       (registeredOn (Builder.withRepository r2 (Builder.withRepository r1 b)))))
    = Some r2 /\
  (Builder.builderRepository b = None ->
   repository (Builder.sagaIn h
     (Builder.build (configureSagalicious config g) (registeredOn b)))
     = configRepository config /\
   repository (Builder.sagaIn h
     (Builder.build (resetGlobalConfig (configureSagalicious config g))
        (registeredOn b)))
     = None).
Proof.
  cbn zeta. split; [|intros Hb; split].
  - destruct (registerAll_run regs
                (Builder.withRepository r2 (Builder.withRepository r1 b)) h)
      as (-> & _). reflexivity.
  - destruct (registerAll_run regs b h) as (-> & _).
    unfold Builder.sagaIn, Builder.build. simpl. now rewrite Hb.
  - destruct (registerAll_run regs b h) as (-> & _).
    unfold Builder.sagaIn, Builder.build. simpl. now rewrite Hb.
Qed.

(** X17: build hands the builder's own array to the saga. A processor
    registered on the builder after build is therefore seen by the sagas
    already built from it, at the end of their list; the sagas of any other
    array, and their repositories, are untouched. *)
Theorem built_saga_shares_processors reg b h g s :
  processors (Builder.sagaIn (snd (Builder.register reg b h)) (Builder.build g b))
    = processors (Builder.sagaIn h (Builder.build g b))
      ++ [Builder.registered reg] /\
  repository (Builder.sagaIn (snd (Builder.register reg b h)) (Builder.build g b))
    = repository (Builder.sagaIn h (Builder.build g b)) /\
  (Builder.sagaProcessors s <> Builder.builderProcessors b ->
   Builder.sagaIn (snd (Builder.register reg b h)) s = Builder.sagaIn h s).
Proof.
  rewrite register_run. unfold Builder.sagaIn. simpl.
  rewrite Nat.eqb_refl. repeat split.
  intros Hs. destruct (Nat.eqb_spec (Builder.sagaProcessors s)
                         (Builder.builderProcessors b)); [contradiction|].
  reflexivity.
Qed.

(** X18: in a saga whose processors are all handlers registered under a
    type, every call that commit or rollback makes goes to a handler
    registered under the type of the command, and to the first such
    handler: a handler registered under a type that an earlier handler
    already has is never called. *)
Theorem handlers_routed_by_type (cfgs : list HandlerConfig)
    (saga : @Saga Ext TMetadata) t action w :
  processors saga = map (@HandlerAdapter Ext TMetadata) cfgs ->
  exists evs,
    calls (snd (processTransaction saga t action w)) = calls w ++ evs /\
    forall ev, In ev evs ->
    exists i command cfg,
      callTarget ev = Some (i, command) /\
      nth_error cfgs i = Some cfg /\
      handlerType cfg = type command /\
      forall j cfg', j < i -> nth_error cfgs j = Some cfg' ->
        handlerType cfg' <> type command.
Proof.
  intros Hps.
  destruct (processTransaction saga t action w) as [o w'] eqn:Hp.
  apply processTransaction_calls in Hp. destruct Hp as (x & evs & -> & Hall).
  exists evs. split; [reflexivity|].
  intros ev Hin. rewrite Forall_forall in Hall. apply Hall in Hin.
  rewrite Hps in Hin.
  assert (Hfm : forall i command,
    firstMatch (map (@HandlerAdapter Ext TMetadata) cfgs) command i ->
    exists cfg, nth_error cfgs i = Some cfg /\ handlerType cfg = type command /\
      forall j cfg', j < i -> nth_error cfgs j = Some cfg' ->
        handlerType cfg' <> type command).
  { intros i command (p & Hn & _ & Hcan & Hmin).
    rewrite nth_error_map in Hn.
    destruct (nth_error cfgs i) as [cfg|] eqn:Hc; [|discriminate].
    injection Hn as <-. exists cfg. split; [reflexivity|]. split.
    - simpl in Hcan. apply String.eqb_eq in Hcan. now symmetry.
    - intros j cfg' Hj Hc' Heq.
      assert (Hq : nth_error (map (@HandlerAdapter Ext TMetadata) cfgs) j
                   = Some (HandlerAdapter cfg'))
        by (rewrite nth_error_map, Hc'; reflexivity).
      specialize (Hmin j _ Hj Hq). simpl in Hmin.
      rewrite Heq, String.eqb_refl in Hmin. discriminate. }
  destruct ev as [i c t'|i c t'| | | | |]; simpl in Hin; try contradiction;
    destruct (Hfm i c Hin) as (cfg & H1 & H2 & H3); exists i, c, cfg; auto.
Qed.

End BuilderProperties.

(** ** The further properties at concrete sagas *)

Lemma uninitialized_transaction_rejected_witness :
  id txNoId = "" /\
  commitTransaction sagaStored txNoId worldABC =
    (Rejected (Error "Only initialized transactions can be processed"),
     txNoId, worldABC) /\
  rollBackTransaction sagaStored txNoId worldABC =
    (Rejected (Error "Only initialized transactions can be processed"),
     txNoId, worldABC).
Proof.
  split; [reflexivity|].
  apply (@uninitialized_transaction_rejected Journal unit sagaStored txNoId worldABC).
  reflexivity.
Defined.

Lemma execute_keeps_identity_witness :
  exists cmds,
    Some cmdsABC = Some cmds /\
    id (setUpdatedAt 1002 (setStatus RolledBack txABC))
      = id (fst (newTransaction cmds None world0)) /\
    createdAt (setUpdatedAt 1002 (setStatus RolledBack txABC))
      = createdAt (fst (newTransaction cmds None world0)) /\
    commands (setUpdatedAt 1002 (setStatus RolledBack txABC)) = cmds /\
    metadata (setUpdatedAt 1002 (setStatus RolledBack txABC))
      = optionsMetadata None.
Proof.
  apply (@execute_keeps_identity Journal unit sagaFailingB (Some cmdsABC) None
           world0 (Rejected (Error "b failed"))
           (setUpdatedAt 1002 (setStatus RolledBack txABC))
           (snd (execute sagaFailingB (Some cmdsABC) None world0))).
  reflexivity.
Defined.

Lemma settle_mutates_before_persisting_witness :
  exists t' w',
    settle sagaStorageFails Commit txABC worldABC
      = (Rejected (Error "storage unavailable"), t', w') /\
    status t' = finalStatus Commit /\
    updatedAt t' = 1002 /\
    status t' <> Pending.
Proof.
  apply (@settle_mutates_before_persisting Journal unit sagaStorageFails
           failingRepository Commit txABC worldABC
           (snd (processTransaction sagaStorageFails txABC Commit worldABC))
           (Error "storage unavailable"));
    reflexivity.
Defined.

Lemma unroutable_command_leaves_pending_witness :
  exists e w' evs,
    execute sagaABC (Some [literal "a"; literal "unknown"; literal "c"]) None world0
      = (Rejected e,
         Some (setCommands [literal "a"; literal "unknown"; literal "c"] txABC),
         w') /\
    status (setCommands [literal "a"; literal "unknown"; literal "c"] txABC)
      = Pending /\
    calls w' = calls worldABC ++ evs /\
    Forall (fun ev => isStorageCall ev = false) evs.
Proof.
  apply (@unroutable_command_leaves_pending Journal unit sagaABC
           [literal "a"; literal "unknown"; literal "c"] None world0
           (setCommands [literal "a"; literal "unknown"; literal "c"] txABC)
           worldABC (literal "unknown")).
  - reflexivity.
  - right. now left.
  - intros p [<-|[<-|[<-|[]]]]; reflexivity.
Defined.

Lemma rollback_mirrors_commit_witness :
  exists applied undone,
    calls (snd (commitTransaction sagaStored txABC worldABC))
      = calls worldABC ++ applied
        ++ ifStored sagaStored
             [updateCall (snd (fst (commitTransaction sagaStored txABC worldABC)))] /\
    calls (snd (rollBackTransaction sagaStored
                  (snd (fst (commitTransaction sagaStored txABC worldABC)))
                  (snd (commitTransaction sagaStored txABC worldABC))))
      = calls (snd (commitTransaction sagaStored txABC worldABC)) ++ undone
        ++ ifStored sagaStored
             [updateCall
                (snd (fst (rollBackTransaction sagaStored
                  (snd (fst (commitTransaction sagaStored txABC worldABC)))
                  (snd (commitTransaction sagaStored txABC worldABC)))))] /\
    Forall (fun ev => isProcessCall ev = true) applied /\
    Forall (fun ev => isRollBackCall ev = true) undone /\
    length applied = length (commands txABC) /\
    map callTarget undone = rev (map callTarget applied).
Proof.
  apply (@rollback_mirrors_commit Journal unit sagaStored txABC worldABC); reflexivity.
Defined.

Lemma create_failure_stops_execute_witness :
  exists w',
    initTransaction sagaStorageDown (Some cmdsABC) None world0
      = (Rejected (Error "storage unavailable"), w') /\
    execute sagaStorageDown (Some cmdsABC) None world0
      = (Rejected (Error "storage unavailable"), None, w') /\
    calls w' = calls world0 ++ [CallCreate (fst (newTransaction cmdsABC None world0))].
Proof.
  apply (@create_failure_stops_execute Journal unit sagaStorageDown
           unreachableRepository cmdsABC None world0 (Error "storage unavailable"));
    [discriminate | reflexivity | reflexivity].
Defined.

Lemma outside_invariant_kept_witness :
  noEmptyNote (ext (snd (execute sagaStored (Some cmdsABC) None world0))).
Proof.
  apply (@outside_invariant_kept Journal unit sagaStored noEmptyNote
           (Some cmdsABC) None Commit txABC world0).
  - intros p action command t x Hin Hx.
    destruct Hin as [<-|[<-|[<-|[]]]]; destruct action; simpl;
      (apply Forall_app; split; [exact Hx | repeat constructor; discriminate]).
  - intros r Hr. injection Hr as <-. split.
    + intros t x Hx. simpl. apply Forall_app. split; [exact Hx|].
      repeat constructor. discriminate.
    + intros i u x Hx. simpl. apply Forall_app. split; [exact Hx|].
      repeat constructor. discriminate.
  - constructor.
Defined.

Lemma stored_under_own_id_witness :
  id (applyUpdates txABC (fullUpdates (mkUpdates (Some Completed) (Some 7))) 9)
    = "00000000-0000-4000-8000-000000000000".
Proof.
  apply (@stored_under_own_id unit
           [MemCreate txABC;
            MemUpdate "00000000-0000-4000-8000-000000000000"
              (fullUpdates (mkUpdates (Some Completed) (Some 7))) 9]).
  - repeat constructor.
  - reflexivity.
Defined.

Lemma stored_record_follows_transaction_witness :
  match execute sagaInMemory (Some cmdsABC) None worldInMemory with
  | (_, Some t', w') =>
      exists r,
        memFindById (id t') (stored (ext w')) = Some r /\
        id r = id t' /\ status r = status t' /\ commands r = commands t' /\
        metadata r = metadata t' /\ createdAt r = createdAt t'
  | (_, None, w') => stored (ext w') = stored (ext worldInMemory)
  end.
Proof.
  apply (@stored_record_follows_transaction Journal unit sagaInMemory
           (Some cmdsABC) None worldInMemory).
  - reflexivity.
  - intros p a command t0 x Hin.
    destruct Hin as [<-|[<-|[<-|[]]]]; destruct a; reflexivity.
Defined.

Lemma handlers_routed_by_type_witness :
  exists evs,
    calls (snd (processTransaction sagaABC txABC RollBack worldABC))
      = calls worldABC ++ evs /\
    forall ev, In ev evs ->
    exists i command cfg,
      callTarget ev = Some (i, command) /\
      nth_error configsABC i = Some cfg /\
      handlerType cfg = type command /\
      forall j cfg', j < i -> nth_error configsABC j = Some cfg' ->
        handlerType cfg' <> type command.
Proof.
  apply (@handlers_routed_by_type Journal unit configsABC sagaABC txABC RollBack
           worldABC).
  reflexivity.
Defined.

(** The failed run of [sagaInMemory]: b's apply step rejects, the three
    commands are compensated, and the stored record is RolledBack. *)
Example run_sagaInMemory :
  fst (fst (execute sagaInMemory (Some cmdsABC) None worldInMemory))
    = Rejected (Error "b failed") /\
  option_map status
    (memFindById "00000000-0000-4000-8000-000000000000"
       (stored (ext (snd (execute sagaInMemory (Some cmdsABC) None worldInMemory)))))
    = Some RolledBack /\
  option_map updatedAt
    (memFindById "00000000-0000-4000-8000-000000000000"
       (stored (ext (snd (execute sagaInMemory (Some cmdsABC) None worldInMemory)))))
    = Some 5000 /\
  handlersOutside (ext (snd (execute sagaInMemory (Some cmdsABC) None worldInMemory)))
    = ["apply a"; "undo c"; "undo b"; "undo a"].
Proof. repeat split. Qed.
